(** * Norway hexagonal map dashboard: a shallow embedding of [Code.py]

    The script draws [num_points] random coordinates inside a fixed bounding
    box with [np.random.uniform], memoizes the resulting table with
    [st.cache_data], and hands it to a declarative pydeck scene.

    Layout of this development:
    - [Binary64]: IEEE 754 double precision arithmetic, on the Standard
      Library's executable specification [SpecFloat], with the exact-value
      semantics needed to bound a rounded result;
    - the script itself: bounding box, random draws, data frame, memo cache,
      widgets, scene description and the rerun loop;
    - the properties of the script. *)

From Stdlib Require Import ZArith Lia Bool List Sorted SpecFloat PrimFloat FloatOps.
From stdpp Require Import gmap strings list.

Local Open Scope Z_scope.

(** ** Binary64 arithmetic *)

Module Binary64.

(** Python floats and numpy's [float64] are IEEE 754 binary64 numbers:
    53 bits of precision, exponent of the infinities 1024. *)
Definition prec : Z := 53.
Definition emax : Z := 1024.

Abbreviation float := spec_float.

Definition fadd : float -> float -> float := SFadd prec emax.
Definition fsub : float -> float -> float := SFsub prec emax.
Definition fmul : float -> float -> float := SFmul prec emax.
Definition fleb : float -> float -> bool := SFleb.
Definition fltb : float -> float -> bool := SFltb.

(** The double nearest to [m * 2^e] (exactly that number whenever [m] fits
    in 53 bits): how a literal or an integer becomes a float. *)
Definition of_dyadic (m e : Z) : float := binary_normalize prec emax m e false.

(** *** Exact values

    Every finite double, and every exact product of two of them, is an
    integer multiple of [2^-scale].  [sval f] is the exact value of a
    non-negative float in that unit. *)
Definition scale : Z := 2148.

Definition sval (f : float) : Z :=
  match f with
  | S754_finite false m e => Zpos m * 2 ^ (e + scale)
  | _ => 0
  end.

(** Non-negative finite doubles in canonical form. *)
Definition good (f : float) : Prop :=
  match f with
  | S754_zero false => True
  | S754_finite false m e => bounded prec emax m e = true
  | _ => False
  end.

(** Round [x] to the nearest multiple of [2^t], ties to the even multiple. *)
Definition rnd_grid (t x : Z) : Z :=
  let q := x / 2 ^ t in
  let r := x mod 2 ^ t in
  (match 2 * r ?= 2 ^ t with
   | Lt => q
   | Eq => if Z.even q then q else q + 1
   | Gt => q + 1
   end) * 2 ^ t.

(** The exponent of the last place of the doubles around [x], in scaled
    units: 53 significant bits, but never below the subnormal spacing. *)
Definition texp (x : Z) : Z := Z.max (Z.log2 x + 1 - prec) (scale - 1074).

(** Round to nearest even, on exact scaled values. *)
Definition rne (x : Z) : Z := rnd_grid (texp x) x.

(** The scaled value of the first number past the largest double. *)
Definition overflow : Z := 2 ^ (emax + scale).

(** A scaled value is a double when it sits on its own grid. *)
Definition representable (x : Z) : Prop := x mod 2 ^ texp x = 0.

(** The largest sample of the unit interval, [1 - 2^-53], as a scaled value. *)
Definition umax : Z := (2 ^ 53 - 1) * 2 ^ (scale - 53).

(** The second half of [binary_round_aux]: renormalise a rounded mantissa
    (one more shift when rounding carried into a 54th bit) and pack it. *)
Definition finish (q e : Z) : float :=
  let '(mrs, e') := shr_fexp prec emax q e loc_Exact in
  match shr_m mrs with
  | Z0 => S754_zero false
  | Zpos m => if e' <=? emax - prec then S754_finite false m e' else S754_infinity false
  | Zneg _ => S754_nan
  end.

End Binary64.

(** ** The script *)

Import Binary64.
Local Open Scope string_scope.
Local Open Scope Z_scope.

(** *** Python values and exceptions *)

Inductive exn :=
| KeyError (key : string)
| ValueError
| OverflowError
| MemoryError.

Inductive result (A : Type) :=
| Ok (a : A)
| Raise (e : exn).
Arguments Ok {A} a.
Arguments Raise {A} e.

(** [pd.DataFrame({'lat': lat, 'lon': lon})]: two float columns. *)
Record DataFrame := { lat : list float; lon : list float }.

(** [len(df)]: the number of rows. *)
Definition len (df : DataFrame) : nat := length (lat df).

(** [df.head(n)] *)
Definition head (n : nat) (df : DataFrame) : DataFrame :=
  {| lat := take n (lat df); lon := take n (lon df) |}.

(** The coordinate pairs the layer extracts with [get_position=["lon", "lat"]]. *)
Definition positions (df : DataFrame) : list (float * float) :=
  zip (lon df) (lat df).

(** *** The random bit generator

    numpy's global [RandomState] is modelled by the tape of raw draws it
    will hand out and a cursor into it.  A double draw consumes one tape
    cell and keeps its low 53 bits [k]; the sample is [k / 2^53], a double
    in [[0, 1)].  *)
Record bitgen := { tape : nat -> Z; cursor : nat }.

Definition next_double (g : bitgen) : float * bitgen :=
  (of_dyadic (tape g (cursor g) mod 2 ^ 53) (-53),
   {| tape := tape g; cursor := S (cursor g) |}).

(** numpy's [random_uniform]: [lower + range * next_double(state)]. *)
Definition random_uniform (lower range : float) (g : bitgen) : float * bitgen :=
  let (u, g') := next_double g in (fadd lower (fmul range u), g').

(** Filling an array of [n] samples, in order. *)
Fixpoint fill (n : nat) (lower range : float) (g : bitgen) : list float * bitgen :=
  match n with
  | O => ([], g)
  | S n' =>
      let (x, g1) := random_uniform lower range g in
      let (xs, g2) := fill n' lower range g1 in
      (x :: xs, g2)
  end.

Definition is_finite (f : float) : bool :=
  match f with
  | S754_zero _ | S754_finite _ _ _ => true
  | S754_infinity _ | S754_nan => false
  end.

(** *** Process state

    What survives from one statement to the next and from one run of the
    script to the next: the module global [NORWAY_BOUNDS], the memo of
    [st.cache_data] (keyed by the argument of [generate_data]), the global
    random state, and the memory of the machine: [room] is the number of
    doubles it can give to one array beyond the [max_points] it always has. *)
Record World := {
  NORWAY_BOUNDS : gmap string float;
  cache : gmap Z DataFrame;
  rng : bitgen;
  room : nat
}.

(** The largest count the script asks for (the top of its slider): a machine
    that runs the dashboard at all has the 80 kB such a column takes. *)
Definition max_points : Z := 10000.

(** Whether [np.empty] gets the memory for an array of [size] doubles. *)
Definition can_allocate (w : World) (size : Z) : bool :=
  size <=? max_points + Z.of_nat (room w).

(** The sizes numpy refuses before it asks for memory: the byte size of an
    array of doubles must fit a signed 64-bit index. *)
Definition too_big (size : Z) : bool := 2 ^ 60 <=? size.

(** Statements: state passing with Python exceptions. A raised exception
    keeps the state reached so far. *)
Definition M (A : Type) : Type := World -> result A * World.

Definition ret {A : Type} (a : A) : M A := fun w => (Ok a, w).
Definition raise {A : Type} (e : exn) : M A := fun w => (Raise e, w).
Definition bind {A B : Type} (c : M A) (k : A -> M B) : M B :=
  fun w => match c w with
           | (Ok a, w') => k a w'
           | (Raise e, w') => (Raise e, w')
           end.

Notation "x <~ c ;; k" := (bind c (fun x => k))
  (at level 100, c at next level, right associativity).

(** [NORWAY_BOUNDS[key]] *)
Definition bounds_get (key : string) : M float :=
  fun w => match NORWAY_BOUNDS w !! key with
           | Some v => (Ok v, w)
           | None => (Raise (KeyError key), w)
           end.

(** [np.random.uniform(low, high, size)] on the global random state: the
    range is computed and checked first; then the array of [size] samples is
    allocated, which fails with [ValueError] for a negative size and for a
    size past the index type, and with [MemoryError] when the machine has
    not the memory; only then are the samples drawn. *)
Definition np_random_uniform (low high : float) (size : Z) : M (list float) :=
  fun w =>
    let range := fsub high low in
    if negb (is_finite range) then (Raise OverflowError, w)
    else if size <? 0 then (Raise ValueError, w)
    else if too_big size then (Raise ValueError, w)
    else if negb (can_allocate w size) then (Raise MemoryError, w)
    else
      let (xs, g) := fill (Z.to_nat size) low range (rng w) in
      (Ok xs, {| NORWAY_BOUNDS := NORWAY_BOUNDS w; cache := cache w; rng := g;
                 room := room w |}).

(** The [pd.DataFrame] constructor refuses columns of different lengths. *)
Definition pd_DataFrame (lat lon : list float) : M DataFrame :=
  if Nat.eqb (length lat) (length lon)
  then ret {| lat := lat; lon := lon |}
  else raise ValueError.

(** The body of [generate_data]. *)
Definition generate_data_body (num_points : Z) : M DataFrame :=
  min_lat <~ bounds_get "min_lat" ;;
  max_lat <~ bounds_get "max_lat" ;;
  lat <~ np_random_uniform min_lat max_lat num_points ;;
  min_lon <~ bounds_get "min_lon" ;;
  max_lon <~ bounds_get "max_lon" ;;
  lon <~ np_random_uniform min_lon max_lon num_points ;;
  pd_DataFrame lat lon.

(** [@st.cache_data]: a hit returns the stored table and runs nothing; a
    miss runs the body and stores its result; an exception stores nothing. *)
Definition cache_data (f : Z -> M DataFrame) (arg : Z) : M DataFrame :=
  fun w =>
    match cache w !! arg with
    | Some df => (Ok df, w)
    | None =>
        match f arg w with
        | (Ok df, w') =>
            (Ok df, {| NORWAY_BOUNDS := NORWAY_BOUNDS w';
                       cache := <[arg := df]> (cache w');
                       rng := rng w';
                       room := room w' |})
        | (Raise e, w') => (Raise e, w')
        end
    end.

Definition generate_data : Z -> M DataFrame := cache_data generate_data_body.

(** [st.cache_data.clear()] *)
Definition cache_data_clear : M unit :=
  fun w => (Ok tt, {| NORWAY_BOUNDS := NORWAY_BOUNDS w; cache := ∅; rng := rng w;
                      room := room w |}).

(** The four literals of the bounding box. *)
Definition f_4_0 : float := of_dyadic 4 0.
Definition f_31_5 : float := of_dyadic 63 (-1).
Definition f_57_5 : float := of_dyadic 115 (-1).
Definition f_71_5 : float := of_dyadic 143 (-1).

(** The dict display assigned to [NORWAY_BOUNDS]. *)
Definition bounds_literal : gmap string float :=
  <["min_lon" := f_4_0]> (<["max_lon" := f_31_5]>
    (<["min_lat" := f_57_5]> (<["max_lat" := f_71_5]> ∅))).

Definition assign_NORWAY_BOUNDS (d : gmap string float) : M unit :=
  fun w => (Ok tt, {| NORWAY_BOUNDS := d; cache := cache w; rng := rng w;
                      room := room w |}).

(** [RerunException] is how [st.rerun()] leaves the script; it is kept apart
    from the Python exceptions above. *)
Inductive outcome (A : Type) :=
| Rendered (a : A)
| Rerun
| Failed (e : exn).
Arguments Rendered {A} a.
Arguments Rerun {A}.
Arguments Failed {A} e.

(** *** Widgets

    The browser reports the value the handle of a slider stands on. The
    backend returns the reported value as it is when it lies between
    [min_value] and [max_value], on a stop or not; a value outside the track
    is dropped for the initial [value], which is also what the slider
    returns until the user has touched it. *)
Record Slider := { min_value : Z; max_value : Z; value : Z; step : Z }.

Definition slider (s : Slider) (reported : option Z) : Z :=
  match reported with
  | None => value s
  | Some v => if (min_value s <=? v) && (v <=? max_value s) then v else value s
  end.

Definition num_points_cfg : Slider :=
  {| min_value := 100; max_value := 10000; value := 5000; step := 100 |}.
Definition hexagon_radius_cfg : Slider :=
  {| min_value := 1000; max_value := 50000; value := 10000; step := 1000 |}.
Definition elevation_scale_cfg : Slider :=
  {| min_value := 1; max_value := 100; value := 20; step := 1 |}.

(** What the browser sends with one run of the script. *)
Record Widgets := {
  num_points_handle : option Z;
  hexagon_radius_handle : option Z;
  elevation_scale_handle : option Z;
  regenerate_clicked : bool;
  show_raw_checked : bool
}.

(** *** The scene description handed to pydeck *)

Record Layer := {
  type : string;
  data : DataFrame;
  get_position : list string;
  radius : Z;
  elevation_scale : Z;
  elevation_range : list Z;
  extruded : bool;
  pickable : bool;
  auto_highlight : bool;
  coverage : Z;
  color_range : list (list Z)
}.

Record ViewState := {
  longitude : float;
  latitude : float;
  zoom : Z;
  pitch : Z;
  bearing : Z
}.

Record Tooltip := { html : string; style : list (string * string) }.

Record Deck := {
  map_style : string;
  layers : list Layer;
  initial_view_state : ViewState;
  tooltip : option Tooltip
}.

Definition color_ramp : list (list Z) :=
  [ [255; 255; 178; 100];
    [254; 204; 92; 120];
    [253; 141; 60; 150];
    [240; 59; 32; 180];
    [189; 0; 38; 220] ].

Definition layer (data : DataFrame) (hexagon_radius_slider elevation_scale_slider : Z)
  : Layer :=
  {| type := "HexagonLayer";
     data := data;
     get_position := ["lon"; "lat"];
     radius := hexagon_radius_slider;
     elevation_scale := elevation_scale_slider;
     elevation_range := [0; 1000];
     extruded := true;
     pickable := true;
     auto_highlight := true;
     coverage := 1;
     color_range := color_ramp |}.

Definition view_state : ViewState :=
  {| longitude := of_dyadic 10 0;
     latitude := of_dyadic 64 0;
     zoom := 4;
     pitch := 50;
     bearing := 0 |}.

Definition deck (layer : Layer) (view_state : ViewState) : Deck :=
  {| map_style := "mapbox://styles/mapbox/light-v10";
     layers := [layer];
     initial_view_state := view_state;
     tooltip :=
       Some {| html := "<b>Elevation Value:</b> {elevationValue}<br/><b>Number of Points:</b> {count}";
               style := [("color", "white")] |} |}.

(** What one complete pass of the script puts on the page. *)
Record Page := {
  generated_points : nat;          (* the sidebar's "Generated N data points." *)
  chart : Deck;                    (* [st.pydeck_chart(deck)] *)
  raw_sample : option DataFrame    (* [st.write(data.head(100))], when ticked *)
}.

(** *** The script, top to bottom *)

Definition script (ui : Widgets) : World -> outcome Page * World :=
  fun w0 =>
    let num_points_slider := slider num_points_cfg (num_points_handle ui) in
    let hexagon_radius_slider := slider hexagon_radius_cfg (hexagon_radius_handle ui) in
    let elevation_scale_slider := slider elevation_scale_cfg (elevation_scale_handle ui) in
    let (_, w1) := assign_NORWAY_BOUNDS bounds_literal w0 in
    match generate_data num_points_slider w1 with
    | (Raise e, w2) => (Failed e, w2)
    | (Ok data, w2) =>
        if regenerate_clicked ui then
          let (_, w3) := cache_data_clear w2 in (Rerun, w3)
        else
          let layer := layer data hexagon_radius_slider elevation_scale_slider in
          let deck := deck layer view_state in
          (Rendered {| generated_points := len data;
                       chart := deck;
                       raw_sample :=
                         if show_raw_checked ui then Some (head 100 data) else None |},
           w2)
    end.

(** The same widgets with the button not clicked. *)
Definition release_button (ui : Widgets) : Widgets :=
  {| num_points_handle := num_points_handle ui;
     hexagon_radius_handle := hexagon_radius_handle ui;
     elevation_scale_handle := elevation_scale_handle ui;
     regenerate_clicked := false;
     show_raw_checked := show_raw_checked ui |}.

(** What the widgets read in the pass that [st.rerun()] starts. A button
    reads [True] only in the pass its click triggered. The interrupted pass
    counts as finished, and Streamlit forgets the state of the widgets that
    pass did not reach: the sliders come before the rerun and keep their
    values, the checkbox comes after it and reads its default [False]. *)
Definition rerun_widgets (ui : Widgets) : Widgets :=
  {| num_points_handle := num_points_handle ui;
     hexagon_radius_handle := hexagon_radius_handle ui;
     elevation_scale_handle := elevation_scale_handle ui;
     regenerate_clicked := false;
     show_raw_checked := false |}.

(** One user interaction: the script runs, and runs again when it asked to. *)
Definition run (ui : Widgets) (w : World) : outcome Page * World :=
  match script ui w with
  | (Rerun, w') => script (rerun_widgets ui) w'
  | r => r
  end.

(** A session: the interactions of a user, oldest first. *)
Definition session (uis : list Widgets) (w : World) : World :=
  fold_left (fun w ui => snd (run ui w)) uis w.

(** *** Predicates used in the statements *)

(** The point lies in the closed bounding box, as float comparisons. *)
Definition in_box (p : float * float) : bool :=
  fleb f_4_0 (fst p) && fleb (fst p) f_31_5 &&
  fleb f_57_5 (snd p) && fleb (snd p) f_71_5.

(** The point lies in the box and strictly below both upper bounds. *)
Definition in_half_open_box (p : float * float) : bool :=
  fleb f_4_0 (fst p) && fltb (fst p) f_31_5 &&
  fleb f_57_5 (snd p) && fltb (snd p) f_71_5.

(** The box as the code reaches it: upper longitude excluded, upper latitude
    included. *)
Definition in_reached_box (p : float * float) : bool :=
  fleb f_4_0 (fst p) && fltb (fst p) f_31_5 &&
  fleb f_57_5 (snd p) && fleb (snd p) f_71_5.

(** A colour whose channels are normalized to the unit interval. *)
Definition normalized_rgba (c : list Z) : Prop :=
  length c = 4%nat /\ Forall (fun ch => 0 <= ch <= 1) c.

(** A colour whose channels are 8-bit values. *)
Definition byte_rgba (c : list Z) : Prop :=
  length c = 4%nat /\ Forall (fun ch => 0 <= ch <= 255) c.

(** Brightness of a stop: the sum of its red, green and blue channels. *)
Definition brightness (c : list Z) : Z :=
  match c with
  | r :: g :: b :: _ => r + g + b
  | _ => 0
  end.

(** What every memoized table satisfies: it was produced for its key. *)
Definition table_for (n : Z) (df : DataFrame) : Prop :=
  0 <= n /\
  Z.of_nat (length (lat df)) = n /\
  Z.of_nat (length (lon df)) = n /\
  Forall (fun p => in_reached_box p = true) (positions df).

Definition cache_ok (w : World) : Prop :=
  forall n df, cache w !! n = Some df -> table_for n df.

(** The world after [k] more draws from the random state. *)
Definition advance (k : nat) (w : World) : World :=
  {| NORWAY_BOUNDS := NORWAY_BOUNDS w;
     cache := cache w;
     rng := {| tape := tape (rng w); cursor := (cursor (rng w) + k)%nat |};
     room := room w |}.

(** The world with one more memoized table. *)
Definition memoize (n : Z) (df : DataFrame) (w : World) : World :=
  {| NORWAY_BOUNDS := NORWAY_BOUNDS w; cache := <[n := df]> (cache w); rng := rng w;
     room := room w |}.

(** A process that has just started: nothing assigned, nothing memoized. *)
Definition fresh (g : bitgen) (spare : nat) : World :=
  {| NORWAY_BOUNDS := ∅; cache := ∅; rng := g; room := spare |}.

(** A statement that leaves the module global [NORWAY_BOUNDS] as it found it. *)
Definition keeps_bounds {A : Type} (c : M A) : Prop :=
  forall w, NORWAY_BOUNDS (snd (c w)) = NORWAY_BOUNDS w.

(** *** Sample inputs *)

(** A tape of raw draws from a linear congruential recurrence. *)
Definition lcg_tape (i : nat) : Z :=
  Z.of_nat i * 6364136223846793005 + 1442695040888963407.

Definition sample_gen : bitgen := {| tape := lcg_tape; cursor := 0 |}.

(** The same tape, except that the very first draw has all its 53 bits
    set: the sample [1 - 2^-53]. *)
Definition top_tape (i : nat) : Z :=
  if Nat.eqb i 0 then 2 ^ 53 - 1 else lcg_tape i.

Definition top_gen : bitgen := {| tape := top_tape; cursor := 0 |}.

(** Untouched widgets, and the same with the button clicked. *)
Definition idle_ui : Widgets :=
  {| num_points_handle := None; hexagon_radius_handle := None;
     elevation_scale_handle := None; regenerate_clicked := false;
     show_raw_checked := false |}.

Definition click_ui : Widgets :=
  {| num_points_handle := None; hexagon_radius_handle := None;
     elevation_scale_handle := None; regenerate_clicked := true;
     show_raw_checked := false |}.

(** The slider for the number of points dragged to its lowest stop. *)
Definition low_ui : Widgets :=
  {| num_points_handle := Some 100; hexagon_radius_handle := None;
     elevation_scale_handle := None; regenerate_clicked := false;
     show_raw_checked := false |}.

(** The table a call returned (the empty table if it raised). *)
Definition table_of (r : result DataFrame * World) : DataFrame :=
  match fst r with
  | Ok df => df
  | Raise _ => {| lat := []; lon := [] |}
  end.

(** The call [generate_data(n)] where the script makes it: after the
    assignment of [NORWAY_BOUNDS]. *)
Definition call_generate_data (n : Z) : M DataFrame :=
  _ <~ assign_NORWAY_BOUNDS bounds_literal ;; generate_data n.

(** *** Further notions, for the properties beyond the bounding box *)

(** The sample [random_uniform] makes of the raw draw [k]. *)
Definition sample_of (lower range : float) (k : Z) : float :=
  fadd lower (fmul range (of_dyadic (k mod 2 ^ 53) (-53))).

(** The table [generate_data] draws for [n] points from the generator [g]:
    [n] latitudes from the next [n] tape cells, then [n] longitudes from the
    [n] cells after them. *)
Definition drawn_table (g : bitgen) (n : nat) : DataFrame :=
  {| lat := List.map (fun i => sample_of f_57_5 (fsub f_71_5 f_57_5)
                                  (tape g (cursor g + i)%nat))
              (List.seq 0 n);
     lon := List.map (fun i => sample_of f_4_0 (fsub f_31_5 f_4_0)
                                  (tape g (cursor g + n + i)%nat))
              (List.seq 0 n) |}.

(** The table the single layer of a rendered page displays. *)
Definition shown_table (o : outcome Page) : option DataFrame :=
  match o with
  | Rendered p =>
      match layers (chart p) with
      | [l] => Some (data l)
      | _ => None
      end
  | _ => None
  end.

(** A statement that leaves the memo as it found it. *)
Definition keeps_cache {A : Type} (c : M A) : Prop :=
  forall w, cache (snd (c w)) = cache w.

(** A statement that only moves the cursor of the random state forward. *)
Definition only_draws {A : Type} (c : M A) : Prop :=
  forall w, tape (rng (snd (c w))) = tape (rng w) /\
            (cursor (rng w) <= cursor (rng (snd (c w))))%nat.

(** Every key of the memo lies on the track of the point-count slider. *)
Definition keys_on_track (w : World) : Prop :=
  forall n df, cache w !! n = Some df -> 100 <= n <= 10000.

(** A bounding box that has lost its two longitude entries. *)
Definition lat_only_bounds : gmap string float :=
  <["min_lat" := f_57_5]> (<["max_lat" := f_71_5]> ∅).

(** A world whose global has lost its longitude entries. *)
Definition lat_only_world : World :=
  {| NORWAY_BOUNDS := lat_only_bounds; cache := ∅; rng := sample_gen; room := 0 |}.

(** The table memoized for 100 points by the first run of a session on
    [sample_gen]. *)
Definition first_table : DataFrame :=
  table_of (call_generate_data 100 (fresh sample_gen 0)).


(** ** Facts about rounding *)

Module Binary64Facts.
Import Binary64.

(** Euclidean division by a positive number, in the form [lia] and [nia] use. *)
Lemma div_mod_pos (x p : Z) :
  0 < p -> x = p * (x / p) + x mod p /\ 0 <= x mod p < p.
Proof.
  intros Hp. split.
  - apply Z.div_mod. lia.
  - apply Z.mod_pos_bound. exact Hp.
Qed.

Lemma pow2_pos (t : Z) : 0 <= t -> 0 < 2 ^ t.
Proof. intros. apply Z.pow_pos_nonneg; lia. Qed.

(** Rounding on a fixed grid leaves grid points alone. *)
Lemma rnd_grid_exact (t x : Z) :
  0 <= t -> x mod 2 ^ t = 0 -> rnd_grid t x = x.
Proof.
  intros Ht Hr. unfold rnd_grid. rewrite Hr.
  pose proof (pow2_pos t Ht) as Hp.
  destruct (div_mod_pos x (2 ^ t) Hp) as [Hx _].
  replace (2 * 0 ?= 2 ^ t) with Lt by (symmetry; apply Z.compare_lt_iff; lia).
  lia.
Qed.

(** Rounding on a fixed grid never crosses a grid point. *)
Lemma rnd_grid_le (t x c : Z) :
  0 <= t -> c mod 2 ^ t = 0 -> x <= c -> rnd_grid t x <= c.
Proof.
  intros Ht Hc Hxc. unfold rnd_grid.
  pose proof (pow2_pos t Ht) as Hp.
  destruct (div_mod_pos x (2 ^ t) Hp) as [Hx Hrx].
  destruct (div_mod_pos c (2 ^ t) Hp) as [Hc' _]. rewrite Hc in Hc'.
  set (p := 2 ^ t) in *. set (q := x / p) in *. set (r := x mod p) in *.
  set (k := c / p) in *.
  assert (Hcases : r = 0 \/ q + 1 <= k) by nia.
  destruct Hcases as [Hr0 | Hk].
  - replace (2 * r ?= p) with Lt by (symmetry; apply Z.compare_lt_iff; lia).
    nia.
  - destruct (2 * r ?= p); [destruct (Z.even q) | |]; nia.
Qed.

Lemma rnd_grid_ge (t x c : Z) :
  0 <= t -> c mod 2 ^ t = 0 -> c <= x -> c <= rnd_grid t x.
Proof.
  intros Ht Hc Hxc. unfold rnd_grid.
  pose proof (pow2_pos t Ht) as Hp.
  destruct (div_mod_pos x (2 ^ t) Hp) as [Hx Hrx].
  destruct (div_mod_pos c (2 ^ t) Hp) as [Hc' _]. rewrite Hc in Hc'.
  set (p := 2 ^ t) in *. set (q := x / p) in *. set (r := x mod p) in *.
  set (k := c / p) in *.
  assert (Hk : k <= q) by nia.
  destruct (2 * r ?= p); [destruct (Z.even q) | |]; nia.
Qed.

(** The result of rounding is itself a grid point. *)
Lemma rnd_grid_mod (t x : Z) : 0 <= t -> rnd_grid t x mod 2 ^ t = 0.
Proof. intros Ht. unfold rnd_grid. apply Z.mod_mul. pose proof (pow2_pos t Ht). lia. Qed.

(** Rounding on a fixed grid is monotone. *)
Lemma rnd_grid_mono (t x y : Z) :
  0 <= t -> x <= y -> rnd_grid t x <= rnd_grid t y.
Proof.
  intros Ht Hxy.
  destruct (Z.le_gt_cases x (rnd_grid t y)) as [Hle | Hgt].
  - apply rnd_grid_le; auto using rnd_grid_mod.
  - (* [y] rounds down below [x]: both lie in the same cell *)
    revert Hgt. unfold rnd_grid.
    pose proof (pow2_pos t Ht) as Hp.
    destruct (div_mod_pos x (2 ^ t) Hp) as [Hx Hrx].
    destruct (div_mod_pos y (2 ^ t) Hp) as [Hy Hry].
    set (p := 2 ^ t) in *. set (q := x / p) in *. set (r := x mod p) in *.
    set (q' := y / p) in *. set (r' := y mod p) in *.
    destruct (Z.compare_spec (2 * r') p) as [E' | L' | G'];
      destruct (Z.compare_spec (2 * r) p) as [E | L | G];
      destruct (Z.even q') eqn:Hev'; destruct (Z.even q) eqn:Hev;
      intros Hgt; try nia;
      assert (q = q') by nia; subst q'; try congruence; nia.
Qed.

(** *** Round to nearest even on scaled values *)

Lemma scale_eq : scale = 2148.
Proof. reflexivity. Qed.

Lemma texp_nonneg (x : Z) : 0 <= texp x.
Proof. unfold texp. rewrite scale_eq. lia. Qed.

Lemma texp_mono (x y : Z) : x <= y -> texp x <= texp y.
Proof.
  intros Hxy. unfold texp, prec.
  pose proof (Z.log2_le_mono x y Hxy). lia.
Qed.

Lemma pow2_mod_pow2 (a b : Z) : 0 <= b <= a -> 2 ^ a mod 2 ^ b = 0.
Proof.
  intros Hab. replace a with ((a - b) + b) by lia.
  rewrite Z.pow_add_r by lia. apply Z.mod_mul.
  pose proof (pow2_pos b). lia.
Qed.

Lemma mul_pow2_mod_pow2 (m a b : Z) : 0 <= b <= a -> (m * 2 ^ a) mod 2 ^ b = 0.
Proof.
  intros Hab. replace a with ((a - b) + b) by lia.
  rewrite Z.pow_add_r, Z.mul_assoc by lia. apply Z.mod_mul.
  pose proof (pow2_pos b). lia.
Qed.

(** Round to nearest even is monotone: within a binade it rounds on one
    grid, and a power of two separates two different binades. *)
Lemma rne_mono (x y : Z) : x <= y -> rne x <= rne y.
Proof.
  intros Hxy. unfold rne.
  pose proof (texp_mono x y Hxy) as Ht.
  pose proof (texp_nonneg x) as Hx0.
  destruct (Z.eq_dec (texp x) (texp y)) as [E | N].
  - rewrite E. apply rnd_grid_mono; [apply texp_nonneg | exact Hxy].
  - assert (Hlt : texp x < texp y) by lia.
    assert (Hy : 0 < y).
    { destruct (Z.lt_ge_cases 0 y) as [H | H]; [exact H |].
      exfalso. unfold texp in Hlt.
      rewrite (Z.log2_nonpos y) in Hlt by lia.
      pose proof (Z.log2_nonneg x). lia. }
    assert (Hty : texp y = Z.log2 y + 1 - prec) by (unfold texp in *; lia).
    assert (Hlog : Z.log2 x < Z.log2 y) by (unfold texp, prec in *; lia).
    pose proof (Z.log2_nonneg x) as Hlx.
    assert (Hb1 : x <= 2 ^ Z.log2 y).
    { destruct (Z.lt_ge_cases 0 x) as [Hx | Hx].
      - destruct (Z.log2_spec x Hx) as [_ Hux].
        assert (2 ^ Z.succ (Z.log2 x) <= 2 ^ Z.log2 y)
          by (apply Z.pow_le_mono_r; lia).
        lia.
      - pose proof (pow2_pos (Z.log2 y)). lia. }
    assert (Hb2 : 2 ^ Z.log2 y <= y) by (apply Z.log2_spec; exact Hy).
    unfold prec in *.
    transitivity (2 ^ Z.log2 y).
    + apply rnd_grid_le; [exact Hx0 | apply pow2_mod_pow2; lia | exact Hb1].
    + apply rnd_grid_ge; [lia | apply pow2_mod_pow2; lia | exact Hb2].
Qed.

Lemma rne_exact (x : Z) : representable x -> rne x = x.
Proof. intros H. apply rnd_grid_exact; [apply texp_nonneg | exact H]. Qed.

Lemma rne_le (x c : Z) : representable c -> x <= c -> rne x <= c.
Proof. intros Hc Hx. rewrite <- (rne_exact c Hc). apply rne_mono, Hx. Qed.

Lemma rne_ge (x c : Z) : representable c -> c <= x -> c <= rne x.
Proof. intros Hc Hx. rewrite <- (rne_exact c Hc). apply rne_mono, Hx. Qed.

Lemma rne_0 : rne 0 = 0.
Proof. apply rne_exact. unfold representable. apply Z.mod_0_l.
       pose proof (pow2_pos (texp 0) (texp_nonneg 0)). lia. Qed.

(** *** Canonical floats and their values *)

Lemma digits2_size (m : positive) : digits2_pos m = Pos.size m.
Proof. induction m; simpl; congruence. Qed.

Lemma digits2_log2 (m : positive) : Zpos (digits2_pos m) = Z.log2 (Zpos m) + 1.
Proof. rewrite digits2_size. destruct m; simpl; lia. Qed.

Lemma bounded_inv (m : positive) (e : Z) :
  bounded prec emax m e = true ->
  e = Z.max (Z.log2 (Zpos m) + 1 + e - 53) (-1074) /\ e <= 971.
Proof.
  unfold bounded, canonical_mantissa, fexp, emin, prec, emax.
  rewrite andb_true_iff, Z.eqb_eq, Z.leb_le, digits2_log2. lia.
Qed.

Lemma bounded_intro (m : positive) (e : Z) :
  e = Z.max (Z.log2 (Zpos m) + 1 + e - 53) (-1074) -> e <= 971 ->
  bounded prec emax m e = true.
Proof.
  unfold bounded, canonical_mantissa, fexp, emin, prec, emax.
  rewrite andb_true_iff, Z.eqb_eq, Z.leb_le, digits2_log2. lia.
Qed.

Lemma log2_scaled (m : positive) (j : Z) :
  0 <= j -> Z.log2 (Zpos m * 2 ^ j) = Z.log2 (Zpos m) + j.
Proof. intros Hj. rewrite Z.log2_mul_pow2 by lia. lia. Qed.

Lemma texp_value (m : positive) (e : Z) :
  bounded prec emax m e = true ->
  texp (Zpos m * 2 ^ (e + scale)) = e + scale.
Proof.
  intros Hb. apply bounded_inv in Hb. destruct Hb as [He _].
  unfold texp, prec. rewrite log2_scaled by (rewrite scale_eq; lia). lia.
Qed.

Lemma value_nonneg (f : float) : 0 <= sval f.
Proof.
  destruct f as [s | s | | s m e]; simpl; try lia.
  destruct s; [lia |]. pose proof (Z.pow_nonneg 2 (e + scale)). lia.
Qed.

Lemma good_representable (f : float) : good f -> representable (sval f).
Proof.
  destruct f as [s | s | | s m e]; simpl; try contradiction.
  - intros _. apply Z.mod_0_l.
    pose proof (pow2_pos (texp 0) (texp_nonneg 0)). lia.
  - destruct s; [contradiction |]. intros Hb. unfold representable.
    rewrite (texp_value m e Hb).
    pose proof (bounded_inv m e Hb) as [He _].
    apply Z.mod_mul.
    pose proof (pow2_pos (e + scale)). rewrite scale_eq in *. lia.
Qed.

(** *** The shift-and-round loop of [SpecFloat] *)

Lemma iter_pos_nat {A : Type} (f : A -> A) (p : positive) (x : A) :
  SpecFloat.iter_pos f p x = Nat.iter (Pos.to_nat p) f x.
Proof.
  revert x. induction p as [p IH | p IH |]; intros x; simpl SpecFloat.iter_pos.
  - rewrite !IH, Pos2Nat.inj_xI.
    replace (S (2 * Pos.to_nat p))%nat with (Pos.to_nat p + S (Pos.to_nat p))%nat by lia.
    rewrite Nat.iter_add, Nat.iter_succ_r. reflexivity.
  - rewrite !IH, Pos2Nat.inj_xO.
    replace (2 * Pos.to_nat p)%nat with (Pos.to_nat p + Pos.to_nat p)%nat by lia.
    rewrite Nat.iter_add. reflexivity.
  - reflexivity.
Qed.

Lemma shr_1_nonneg (m : Z) (r s : bool) :
  0 <= m ->
  shr_1 (Build_shr_record m r s) = Build_shr_record (m / 2) (Z.odd m) (r || s).
Proof.
  intros Hm. rewrite <- Z.div2_div.
  destruct m as [| [p | p |] |]; try reflexivity. lia.
Qed.

(** After [j] one-bit shifts the record holds the quotient by [2^j], and
    its two flags tell where the remainder sits relative to the half. *)
Lemma shr_iter_spec (m : Z) (j : nat) :
  0 <= m ->
  let mrs := Nat.iter j shr_1 (Build_shr_record m false false) in
  let p := 2 ^ Z.of_nat j in
  shr_m mrs = m / p /\
  (shr_r mrs = true <-> p <= 2 * (m mod p)) /\
  (shr_s mrs = true <-> m mod p <> 0 /\ 2 * (m mod p) <> p).
Proof.
  intros Hm. induction j as [| j IH].
  - simpl. rewrite Z.div_1_r, Z.mod_1_r. repeat split; intros; try lia; discriminate.
  - cbn zeta in *. rewrite Nat2Z.inj_succ, Z.pow_succ_r by lia.
    change (Nat.iter (S j) shr_1 ?x) with (shr_1 (Nat.iter j shr_1 x)).
    destruct (Nat.iter j shr_1 (Build_shr_record m false false)) as [q rb sb].
    simpl in IH. destruct IH as (Hq & Hr & Hs).
    assert (Hp : 0 < 2 ^ Z.of_nat j) by (apply pow2_pos; lia).
    set (p := 2 ^ Z.of_nat j) in *.
    assert (Hq0 : 0 <= q) by (subst q; apply Z.div_pos; lia).
    rewrite shr_1_nonneg by exact Hq0. simpl.
    destruct (div_mod_pos m p Hp) as [Em Bm].
    destruct (div_mod_pos m (2 * p) ltac:(lia)) as [Em2 Bm2].
    destruct (div_mod_pos q 2 ltac:(lia)) as [Eq2 Bq2].
    rewrite <- Hq in Em.
    assert (Hquot : m / (2 * p) = q / 2) by nia.
    assert (Hrem : m mod (2 * p) = (q mod 2) * p + m mod p) by nia.
    rewrite Hquot, Hrem. split; [reflexivity |].
    rewrite orb_true_iff, Hr, Hs, Zodd_mod, Z.eqb_eq.
    assert (Hb : q mod 2 = 0 \/ q mod 2 = 1) by lia.
    clear Hquot Hrem Em2 Eq2 Em.
    destruct Hb as [-> | ->]; lia.
Qed.

(** Shifting then rounding the mantissa is rounding on the grid [2^n]. *)
Lemma round_shr (m : Z) (n : positive) :
  0 <= m ->
  let mrs := SpecFloat.iter_pos shr_1 n (Build_shr_record m false false) in
  round_nearest_even (shr_m mrs) (loc_of_shr_record mrs) * 2 ^ Zpos n
  = rnd_grid (Zpos n) m.
Proof.
  intros Hm. cbn zeta. rewrite iter_pos_nat.
  pose proof (shr_iter_spec m (Pos.to_nat n) Hm) as H. cbn zeta in H.
  rewrite positive_nat_Z in H.
  destruct (Nat.iter (Pos.to_nat n) shr_1 (Build_shr_record m false false))
    as [q rb sb].
  simpl in H. destruct H as (Hq & Hr & Hs). simpl shr_m.
  unfold rnd_grid. rewrite <- Hq. f_equal.
  assert (Hp : 0 < 2 ^ Zpos n) by (apply pow2_pos; lia).
  destruct (div_mod_pos m (2 ^ Zpos n) Hp) as [_ Bm].
  destruct (Z.compare_spec (2 * (m mod 2 ^ Zpos n)) (2 ^ Zpos n)) as [E | L | G].
  - assert (rb = true) by (apply Hr; lia).
    assert (sb <> true) by (rewrite Hs; lia).
    destruct rb, sb; try congruence. reflexivity.
  - assert (rb <> true) by (rewrite Hr; lia).
    destruct rb, sb; try congruence; reflexivity.
  - assert (rb = true) by (apply Hr; lia).
    assert (sb = true) by (apply Hs; lia).
    subst. reflexivity.
Qed.

(** *** [binary_round_aux] computes [rne] *)

Lemma binary_round_aux_finish (m e : Z) (l : location) :
  binary_round_aux prec emax false m e l
  = let '(mrs, e') := shr_fexp prec emax m e l in
    finish (round_nearest_even (shr_m mrs) (loc_of_shr_record mrs)) e'.
Proof. reflexivity. Qed.

Lemma pow2_lt_inv (a b : Z) : 0 <= b -> 2 ^ a < 2 ^ b -> a < b.
Proof. intros Hb H. apply (Z.pow_lt_mono_r_iff 2); [lia | exact Hb | exact H]. Qed.

Lemma pow2_le (a b : Z) : 0 <= a <= b -> 2 ^ a <= 2 ^ b.
Proof. intros H. apply Z.pow_le_mono_r; lia. Qed.

Lemma fexp_eq (d : Z) : fexp prec emax d = Z.max (d - 53) (-1074).
Proof. reflexivity. Qed.

Lemma shr_0 (mrs : shr_record) (e : Z) : shr mrs e 0 = (mrs, e).
Proof. reflexivity. Qed.

Lemma shr_one (mrs : shr_record) (e : Z) : shr mrs e 1 = (shr_1 mrs, e + 1).
Proof. reflexivity. Qed.

Lemma finish_correct (q fe : Z) :
  0 <= q <= 2 ^ 53 -> -1074 <= fe -> (-1074 < fe -> 2 ^ 52 <= q) ->
  q * 2 ^ (fe + scale) < overflow ->
  good (finish q fe) /\ sval (finish q fe) = q * 2 ^ (fe + scale).
Proof.
  intros Hq Hfe Hnorm Hov. unfold finish, shr_fexp.
  destruct q as [| pq | pq]; [| | lia].
  - (* the mantissa rounded to zero *)
    simpl Zdigits2. rewrite fexp_eq.
    replace (shr _ fe _) with (Build_shr_record 0 false false, fe).
    + simpl. split; [exact I | reflexivity].
    + simpl shr_record_of_loc. unfold shr.
      destruct (Z.max (0 + fe - 53) (-1074) - fe) eqn:E; try reflexivity. lia.
  - simpl Zdigits2. rewrite digits2_log2, fexp_eq. simpl shr_record_of_loc.
    assert (Hpos : 0 < Zpos pq) by lia.
    assert (Hs : 0 < 2 ^ (fe + scale)) by (apply pow2_pos; rewrite scale_eq; lia).
    destruct (Z.eq_dec (Zpos pq) (2 ^ 53)) as [E53 | N53].
    + (* rounding carried: one more shift *)
      assert (Hl : Z.log2 (Zpos pq) = 53) by (rewrite E53; reflexivity).
      rewrite Hl.
      replace (Z.max (53 + 1 + fe - 53) (-1074) - fe) with 1 by lia.
      rewrite shr_one, shr_1_nonneg by lia. simpl shr_m.
      rewrite E53. change (2 ^ 53 / 2) with (Zpos (2 ^ 52)).
      assert (Hfe' : fe + 1 <= 971).
      { unfold overflow, emax in Hov. rewrite E53 in Hov.
        rewrite <- Z.pow_add_r in Hov by (rewrite ?scale_eq; lia).
        apply pow2_lt_inv in Hov; rewrite scale_eq in *; lia. }
      replace (fe + 1 <=? emax - prec) with true
        by (symmetry; apply Z.leb_le; unfold emax, prec; lia).
      split.
      * simpl. apply bounded_intro; [| lia].
        change (Z.log2 (Zpos (2 ^ 52))) with 52. lia.
      * simpl sval. replace (fe + 1 + scale) with (1 + (fe + scale)) by lia.
        rewrite Z.pow_add_r by (rewrite ?scale_eq; lia).
        change (Zpos (2 ^ 52)) with (2 ^ 52). lia.
    + assert (Hlt : Zpos pq < 2 ^ 53) by lia.
      assert (Hl : Z.log2 (Zpos pq) < 53) by (apply Z.log2_lt_pow2; lia).
      pose proof (Z.log2_nonneg (Zpos pq)) as Hl0.
      assert (Hl' : -1074 < fe -> 52 <= Z.log2 (Zpos pq)).
      { intros H. apply Z.log2_le_pow2; [lia | apply Hnorm, H]. }
      replace (Z.max (Z.log2 (Zpos pq) + 1 + fe - 53) (-1074) - fe) with 0 by lia.
      rewrite shr_0. simpl shr_m.
      assert (Hfe' : fe <= 971).
      { destruct (Z.le_gt_cases fe (-1074)) as [H | H]; [lia |].
        specialize (Hnorm H). unfold overflow, emax in Hov.
        assert (Hc : 2 ^ (52 + (fe + scale)) < 2 ^ (1024 + scale)).
        { rewrite Z.pow_add_r by (rewrite ?scale_eq; lia). nia. }
        apply pow2_lt_inv in Hc; rewrite scale_eq in *; lia. }
      replace (fe <=? emax - prec) with true
        by (symmetry; apply Z.leb_le; unfold emax, prec; lia).
      split; [| reflexivity].
      simpl. apply bounded_intro; lia.
Qed.

Lemma rnd_grid_scale (n j m : Z) :
  0 <= n -> 0 <= j -> rnd_grid (n + j) (m * 2 ^ j) = rnd_grid n m * 2 ^ j.
Proof.
  intros Hn Hj. unfold rnd_grid.
  pose proof (pow2_pos n Hn) as Pn. pose proof (pow2_pos j Hj) as Pj.
  rewrite Z.pow_add_r by lia.
  rewrite Z.div_mul_cancel_r by lia.
  rewrite Z.mul_mod_distr_r by lia.
  replace (2 * (m mod 2 ^ n * 2 ^ j)) with (2 * (m mod 2 ^ n) * 2 ^ j) by ring.
  rewrite <- Zmult_compare_compat_r by lia.
  ring.
Qed.

Lemma texp_scaled (m : positive) (e : Z) :
  - scale <= e ->
  texp (Zpos m * 2 ^ (e + scale))
  = fexp prec emax (Zpos (digits2_pos m) + e) + scale.
Proof.
  intros He. unfold texp, prec. rewrite log2_scaled by lia.
  rewrite digits2_log2, fexp_eq. lia.
Qed.

(** The heart of the matter: on a positive mantissa that is not shorter
    than the format wants, [binary_round_aux] returns the canonical double
    whose value is the round-to-nearest-even of the exact value. *)
Lemma round_aux_correct (m : positive) (e : Z) :
  - scale <= e ->
  e <= fexp prec emax (Zpos (digits2_pos m) + e) ->
  rne (Zpos m * 2 ^ (e + scale)) < overflow ->
  good (binary_round_aux prec emax false (Zpos m) e loc_Exact) /\
  sval (binary_round_aux prec emax false (Zpos m) e loc_Exact)
  = rne (Zpos m * 2 ^ (e + scale)).
Proof.
  intros He Hfe. unfold rne. rewrite texp_scaled by exact He.
  rewrite binary_round_aux_finish. unfold shr_fexp. simpl Zdigits2.
  rewrite digits2_log2, fexp_eq in *.
  set (fe := Z.max (Z.log2 (Zpos m) + 1 + e - 53) (-1074)) in *.
  pose proof (Z.log2_nonneg (Zpos m)) as Hl0.
  destruct (Z.log2_spec (Zpos m) ltac:(lia)) as [Hlo Hhi].
  assert (Hs : 0 < 2 ^ (e + scale)) by (apply pow2_pos; lia).
  simpl shr_record_of_loc.
  destruct (fe - e) as [| n | n] eqn:En; [| | lia].
  - (* nothing to shift: the input is already canonical *)
    assert (fe = e) by lia. rewrite shr_0. simpl round_nearest_even.
    replace (fe + scale) with (e + scale) by lia.
    rewrite rnd_grid_exact by (try apply mul_pow2_mod_pow2; lia).
    intros Hov. apply finish_correct; try lia.
    + assert (Z.log2 (Zpos m) < 53) by lia.
      assert (Zpos m < 2 ^ 53) by (apply Z.log2_lt_pow2; lia). lia.
    + intros H1. apply Z.log2_le_pow2; lia.
  - (* [n] low bits are shifted out and rounded *)
    pose proof (round_shr (Zpos m) n ltac:(lia)) as Hr. cbn zeta in Hr.
    unfold shr.
    set (q := round_nearest_even _ _) in *.
    assert (Pn : 0 < 2 ^ Zpos n) by (apply pow2_pos; lia).
    replace (fe + scale) with (Zpos n + (e + scale)) by lia.
    rewrite rnd_grid_scale by lia. rewrite <- Hr.
    assert (Hq0 : 0 <= q * 2 ^ Zpos n).
    { rewrite Hr. apply rnd_grid_ge; [lia | apply Z.mod_0_l; lia | lia]. }
    assert (Hq1 : q * 2 ^ Zpos n <= 2 ^ (53 + Zpos n)).
    { rewrite Hr. apply rnd_grid_le; [lia | apply pow2_mod_pow2; lia |].
      assert (2 ^ Z.succ (Z.log2 (Zpos m)) <= 2 ^ (53 + Zpos n))
        by (apply pow2_le; lia).
      lia. }
    rewrite Z.pow_add_r in Hq1 by lia.
    replace (q * 2 ^ Zpos n * 2 ^ (e + scale)) with (q * 2 ^ (e + Zpos n + scale)).
    2:{ replace (e + Zpos n + scale) with (Zpos n + (e + scale)) by lia.
        rewrite Z.pow_add_r by lia. ring. }
    intros Hov. apply finish_correct; try lia; try nia.
    intros Hnorm.
    assert (Hq2 : 2 ^ (52 + Zpos n) <= q * 2 ^ Zpos n).
    { rewrite Hr. apply rnd_grid_ge; [lia | apply pow2_mod_pow2; lia |].
      replace (52 + Zpos n) with (Z.log2 (Zpos m)) by lia. exact Hlo. }
    rewrite Z.pow_add_r in Hq2 by lia. nia.
Qed.

(** *** Conversion, multiplication and addition *)

Lemma pos_iter_xO (m d : positive) : Zpos (Pos.iter xO m d) = Zpos m * 2 ^ Zpos d.
Proof.
  induction d as [| d IH] using Pos.peano_ind.
  - simpl. lia.
  - rewrite Pos.iter_succ, Pos2Z.inj_xO, IH, Pos2Z.inj_succ, Z.pow_succ_r by lia. ring.
Qed.

Lemma shl_align_spec (m : positive) (e e' : Z) :
  snd (shl_align m e e') = Z.min e e' /\
  Zpos (fst (shl_align m e e')) = Zpos m * 2 ^ (e - Z.min e e').
Proof.
  unfold shl_align. destruct (e' - e) as [| d | d] eqn:E; simpl.
  - replace (e - Z.min e e') with 0 by lia. lia.
  - replace (e - Z.min e e') with 0 by lia. lia.
  - rewrite pos_iter_xO. replace (e - Z.min e e') with (Zpos d) by lia. lia.
Qed.

Lemma round_correct (m : positive) (e : Z) :
  - scale <= e ->
  rne (Zpos m * 2 ^ (e + scale)) < overflow ->
  good (binary_round prec emax false m e) /\
  sval (binary_round prec emax false m e) = rne (Zpos m * 2 ^ (e + scale)).
Proof.
  intros He Hov. unfold binary_round. pose proof scale_eq as HS.
  set (fe := fexp prec emax (Zpos (digits2_pos m) + e)).
  destruct (shl_align_spec m e fe) as [Hez Hmz].
  destruct (shl_align m e fe) as [mz ez]. simpl in Hez, Hmz. subst ez.
  assert (Hfe : fe = Z.max (Z.log2 (Zpos m) + 1 + e - 53) (-1074))
    by (unfold fe; rewrite digits2_log2, fexp_eq; reflexivity).
  pose proof (Z.log2_nonneg (Zpos m)) as Hl0.
  assert (Hval : Zpos mz * 2 ^ (Z.min e fe + scale) = Zpos m * 2 ^ (e + scale)).
  { rewrite Hmz, <- Z.mul_assoc, <- Z.pow_add_r by lia.
    do 2 f_equal. lia. }
  rewrite <- Hval in *.
  apply round_aux_correct; [lia | | exact Hov].
  rewrite digits2_log2, fexp_eq, Hmz, log2_scaled by lia. lia.
Qed.

Lemma of_dyadic_correct (m e : Z) :
  0 <= m -> - scale <= e ->
  rne (m * 2 ^ (e + scale)) < overflow ->
  good (of_dyadic m e) /\ sval (of_dyadic m e) = rne (m * 2 ^ (e + scale)).
Proof.
  intros Hm He Hov. unfold of_dyadic, binary_normalize.
  destruct m as [| p | p]; [| | lia].
  - rewrite Z.mul_0_l, rne_0. split; [exact I | reflexivity].
  - apply round_correct; assumption.
Qed.

(** A double product is the exact product, rounded once. *)
Lemma fmul_correct (x y : float) :
  good x -> good y ->
  rne (sval x * sval y / 2 ^ scale) < overflow ->
  good (fmul x y) /\ sval (fmul x y) = rne (sval x * sval y / 2 ^ scale).
Proof.
  assert (Hz : 0 / 2 ^ scale = 0) by reflexivity.
  pose proof scale_eq as HS.
  destruct x as [[|] | [|] | | [|] mx ex]; try contradiction;
    destruct y as [[|] | [|] | | [|] my ey]; try contradiction;
    intros Hx Hy; simpl fmul; simpl sval;
    rewrite ?Z.mul_0_l, ?Z.mul_0_r, ?Hz, ?rne_0;
    try (intros _; split; [exact I | reflexivity]).
  simpl in Hx, Hy.
  destruct (bounded_inv _ _ Hx) as [Hex _]. destruct (bounded_inv _ _ Hy) as [Hey _].
  pose proof (Z.log2_nonneg (Zpos mx)) as Hlx.
  pose proof (Z.log2_nonneg (Zpos my)) as Hly.
  assert (Hprod : Zpos mx * 2 ^ (ex + scale) * (Zpos my * 2 ^ (ey + scale)) / 2 ^ scale
                  = Zpos (mx * my) * 2 ^ (ex + ey + scale)).
  { replace (Zpos mx * 2 ^ (ex + scale) * (Zpos my * 2 ^ (ey + scale)))
      with (Zpos (mx * my) * (2 ^ (ex + scale) * 2 ^ (ey + scale)))
      by (rewrite Pos2Z.inj_mul; ring).
    rewrite <- Z.pow_add_r by lia.
    replace (ex + scale + (ey + scale)) with ((ex + ey + scale) + scale) by lia.
    rewrite Z.pow_add_r, Z.mul_assoc by lia.
    apply Z.div_mul. pose proof (pow2_pos scale). lia. }
  rewrite Hprod. intros Hov.
  apply round_aux_correct; [lia | | exact Hov].
  rewrite digits2_log2, fexp_eq, Pos2Z.inj_mul.
  pose proof (Z.log2_mul_below (Zpos mx) (Zpos my) ltac:(lia) ltac:(lia)). lia.
Qed.

(** A double sum of non-negative numbers is the exact sum, rounded once. *)
Lemma fadd_correct (x y : float) :
  good x -> good y ->
  rne (sval x + sval y) < overflow ->
  good (fadd x y) /\ sval (fadd x y) = rne (sval x + sval y).
Proof.
  pose proof scale_eq as HS.
  destruct x as [[|] | [|] | | [|] mx ex]; try contradiction;
    destruct y as [[|] | [|] | | [|] my ey]; try contradiction;
    intros Hx Hy; simpl fadd; simpl sval.
  - rewrite Z.add_0_l, rne_0. intros _. split; [exact I | reflexivity].
  - pose proof (rne_exact _ (good_representable (S754_finite false my ey) Hy)) as E.
    simpl sval in E. rewrite Z.add_0_l, E.
    intros _. split; [exact Hy | reflexivity].
  - pose proof (rne_exact _ (good_representable (S754_finite false mx ex) Hx)) as E.
    simpl sval in E. rewrite Z.add_0_r, E.
    intros _. split; [exact Hx | reflexivity].
  - simpl in Hx, Hy.
    destruct (bounded_inv _ _ Hx) as [Hex _]. destruct (bounded_inv _ _ Hy) as [Hey _].
    destruct (shl_align_spec mx ex (Z.min ex ey)) as [_ Hax].
    destruct (shl_align_spec my ey (Z.min ex ey)) as [_ Hay].
    set (ez := Z.min ex ey) in *.
    replace (Z.min ex ez) with ez in Hax by lia.
    replace (Z.min ey ez) with ez in Hay by lia.
    change (binary_normalize prec emax
              (Zpos (fst (shl_align mx ex ez)) + Zpos (fst (shl_align my ey ez))) ez false)
      with (binary_round prec emax false
              (fst (shl_align mx ex ez) + fst (shl_align my ey ez)) ez).
    assert (Hsum : Zpos mx * 2 ^ (ex + scale) + Zpos my * 2 ^ (ey + scale)
                   = Zpos (fst (shl_align mx ex ez) + fst (shl_align my ey ez))
                     * 2 ^ (ez + scale)).
    { rewrite Pos2Z.inj_add, Hax, Hay, Z.mul_add_distr_r.
      rewrite <- !Z.mul_assoc, <- !Z.pow_add_r by lia.
      replace (ex - ez + (ez + scale)) with (ex + scale) by lia.
      replace (ey - ez + (ez + scale)) with (ey + scale) by lia.
      reflexivity. }
    rewrite Hsum. intros Hov. apply round_correct; [lia | exact Hov].
Qed.

(** *** Comparison *)

(** Between canonical doubles the exponent decides first. *)
Lemma value_lt_exp (mx my : positive) (ex ey : Z) :
  bounded prec emax mx ex = true -> bounded prec emax my ey = true ->
  ex < ey ->
  Zpos mx * 2 ^ (ex + scale) < Zpos my * 2 ^ (ey + scale).
Proof.
  intros Hx Hy Hlt. pose proof scale_eq as HS.
  destruct (bounded_inv _ _ Hx) as [Hex _]. destruct (bounded_inv _ _ Hy) as [Hey _].
  pose proof (Z.log2_nonneg (Zpos mx)) as Hlx.
  assert (Hmx : Zpos mx < 2 ^ 53) by (apply Z.log2_lt_pow2; lia).
  assert (Hmy : 2 ^ 52 <= Zpos my) by (apply Z.log2_le_pow2; lia).
  assert (Px : 0 < 2 ^ (ex + scale)) by (apply pow2_pos; lia).
  assert (Py : 0 < 2 ^ (ey + scale)) by (apply pow2_pos; lia).
  assert (Hstep : 2 ^ 53 * 2 ^ (ex + scale) <= 2 ^ 52 * 2 ^ (ey + scale)).
  { rewrite <- !Z.pow_add_r by lia. apply pow2_le. lia. }
  nia.
Qed.

Lemma compare_value (x y : float) :
  good x -> good y -> SFcompare x y = Some (sval x ?= sval y).
Proof.
  pose proof scale_eq as HS.
  destruct x as [[|] | [|] | | [|] mx ex]; try contradiction;
    destruct y as [[|] | [|] | | [|] my ey]; try contradiction;
    intros Hx Hy; simpl SFcompare; simpl sval; try reflexivity; f_equal; symmetry.
  - simpl in Hy. destruct (bounded_inv _ _ Hy) as [Hey _].
    apply Z.compare_lt_iff. pose proof (pow2_pos (ey + scale)). nia.
  - simpl in Hx. destruct (bounded_inv _ _ Hx) as [Hex _].
    apply Z.compare_gt_iff. pose proof (pow2_pos (ex + scale)). nia.
  - simpl in Hx, Hy.
    destruct (Z.compare_spec ex ey) as [E | L | G].
    + subst ey. destruct (bounded_inv _ _ Hx) as [Hex _].
      rewrite <- Zmult_compare_compat_r by (pose proof (pow2_pos (ex + scale)); lia).
      reflexivity.
    + apply Z.compare_lt_iff. apply value_lt_exp; assumption.
    + apply Z.compare_gt_iff. apply value_lt_exp; assumption.
Qed.

Lemma fleb_value (x y : float) :
  good x -> good y -> (fleb x y = true <-> sval x <= sval y).
Proof.
  intros Hx Hy. unfold fleb, SFleb. rewrite (compare_value x y Hx Hy).
  destruct (Z.compare_spec (sval x) (sval y)); split; intros; try lia; try discriminate;
    reflexivity.
Qed.

Lemma fltb_value (x y : float) :
  good x -> good y -> (fltb x y = true <-> sval x < sval y).
Proof.
  intros Hx Hy. unfold fltb, SFltb. rewrite (compare_value x y Hx Hy).
  destruct (Z.compare_spec (sval x) (sval y)); split; intros; try lia; try discriminate;
    reflexivity.
Qed.

(** *** Samples of the unit interval and affine images of them *)

Lemma representable_small (m j : Z) :
  0 <= m < 2 ^ 53 -> scale - 1074 <= j -> representable (m * 2 ^ j).
Proof.
  intros Hm Hj. pose proof scale_eq as HS. unfold representable.
  destruct (Z.eq_dec m 0) as [-> | Hm0].
  - rewrite Z.mul_0_l. apply Z.mod_0_l.
    pose proof (pow2_pos (texp 0) (texp_nonneg 0)). lia.
  - assert (Hl : Z.log2 m < 53) by (apply Z.log2_lt_pow2; lia).
    pose proof (Z.log2_nonneg m).
    apply mul_pow2_mod_pow2. split; [apply texp_nonneg |].
    unfold texp, prec. rewrite Z.log2_mul_pow2 by lia. lia.
Qed.

(** A 53-bit integer scaled by [2^-53] is a double of the unit interval. *)
Lemma unit_sample_correct (k : Z) :
  let u := of_dyadic (k mod 2 ^ 53) (-53) in
  good u /\ 0 <= sval u <= umax.
Proof.
  cbn zeta. pose proof scale_eq as HS.
  destruct (div_mod_pos k (2 ^ 53) ltac:(lia)) as [_ Hk].
  set (K := k mod 2 ^ 53) in *.
  assert (Hrep : representable (K * 2 ^ (-53 + scale)))
    by (apply representable_small; lia).
  assert (Hp : 0 < 2 ^ (-53 + scale)) by (apply pow2_pos; lia).
  assert (Hle : K * 2 ^ (-53 + scale) <= umax).
  { unfold umax. replace (scale - 53) with (-53 + scale) by lia. nia. }
  assert (Hmax : umax < overflow) by (apply Z.ltb_lt; vm_compute; reflexivity).
  destruct (of_dyadic_correct K (-53)) as [Hg Hv]; [lia | lia | |].
  - rewrite (rne_exact _ Hrep). lia.
  - rewrite (rne_exact _ Hrep) in Hv. rewrite Hv. split; [exact Hg | nia].
Qed.

(** [low + range * u] for a sample [u] of the unit interval stays between
    [low] and any double [top] that dominates the image of the largest
    sample. The three numeric side conditions are closed facts about the
    constants involved. *)
Lemma affine_sample_bounds (low range top u : float) (top1 : Z) :
  good low -> good range -> good top -> good u ->
  sval u <= umax ->
  rne (sval range * umax / 2 ^ scale) <= top1 ->
  sval low + top1 <= sval top ->
  sval top < overflow ->
  good (fadd low (fmul range u)) /\
  sval low <= sval (fadd low (fmul range u)) <= sval top.
Proof.
  intros Hlow Hrange Htop Hu Humax Hprod Hsum Hov.
  pose proof (value_nonneg low) as Hl0. pose proof (value_nonneg range) as Hr0.
  pose proof (value_nonneg u) as Hu0.
  assert (Hs : 0 < 2 ^ scale) by (apply pow2_pos; rewrite scale_eq; lia).
  set (p := sval range * sval u / 2 ^ scale).
  assert (Hp0 : 0 <= p) by (apply Z.div_pos; [nia | exact Hs]).
  assert (Hp1 : p <= sval range * umax / 2 ^ scale)
    by (apply Z.div_le_mono; [exact Hs | nia]).
  assert (Hm0 : 0 <= rne p).
  { apply rne_ge; [| exact Hp0]. apply (representable_small 0 (scale - 1074)); lia. }
  assert (Hm1 : rne p <= top1)
    by (etransitivity; [apply rne_mono, Hp1 | exact Hprod]).
  destruct (fmul_correct range u Hrange Hu) as [Hgm Hvm]; [fold p; lia |].
  fold p in Hvm.
  assert (Hx0 : sval low <= rne (sval low + sval (fmul range u))).
  { apply rne_ge; [apply good_representable, Hlow | lia]. }
  assert (Hx1 : rne (sval low + sval (fmul range u)) <= sval top).
  { apply rne_le; [apply good_representable, Htop | lia]. }
  destruct (fadd_correct low (fmul range u) Hlow Hgm) as [Hgx Hvx]; [lia |].
  rewrite Hvx. auto.
Qed.

End Binary64Facts.

(** ** Facts about the generator *)

Module GeneratorFacts.
Import Binary64Facts.

Ltac closed := vm_compute; first [exact I | reflexivity].

Lemma lookup_min_lat : bounds_literal !! "min_lat" = Some f_57_5.
Proof. reflexivity. Qed.
Lemma lookup_max_lat : bounds_literal !! "max_lat" = Some f_71_5.
Proof. reflexivity. Qed.
Lemma lookup_min_lon : bounds_literal !! "min_lon" = Some f_4_0.
Proof. reflexivity. Qed.
Lemma lookup_max_lon : bounds_literal !! "max_lon" = Some f_31_5.
Proof. reflexivity. Qed.

(** The two ranges [high - low] are exact: 14.0 and 27.5. *)
Lemma range_lat : fsub f_71_5 f_57_5 = of_dyadic 14 0.
Proof. closed. Qed.
Lemma range_lon : fsub f_31_5 f_4_0 = of_dyadic 55 (-1).
Proof. closed. Qed.

(** A latitude sample lies in the closed interval [[57.5, 71.5]]. *)
Lemma lat_sample (u : float) :
  good u -> sval u <= umax ->
  let x := fadd f_57_5 (fmul (fsub f_71_5 f_57_5) u) in
  fleb f_57_5 x = true /\ fleb x f_71_5 = true.
Proof.
  intros Hu Hmax. cbn zeta. rewrite range_lat.
  assert (G1 : good f_57_5) by closed.
  assert (G2 : good f_71_5) by closed.
  assert (G3 : good (of_dyadic 14 0)) by closed.
  assert (N1 : rne (sval (of_dyadic 14 0) * umax / 2 ^ scale) <= sval (of_dyadic 14 0))
    by (apply Z.leb_le; closed).
  assert (N2 : sval f_57_5 + sval (of_dyadic 14 0) <= sval f_71_5)
    by (apply Z.leb_le; closed).
  assert (N3 : sval f_71_5 < overflow) by (apply Z.ltb_lt; closed).
  destruct (affine_sample_bounds f_57_5 (of_dyadic 14 0) f_71_5 u _
              G1 G3 G2 Hu Hmax N1 N2 N3) as [Hg [Hlo Hhi]].
  split; apply fleb_value; assumption.
Qed.

(** A longitude sample lies in [[4.0, 31.5)]: the largest sample maps to
    the double just below 31.5. *)
Lemma lon_sample (u : float) :
  good u -> sval u <= umax ->
  let x := fadd f_4_0 (fmul (fsub f_31_5 f_4_0) u) in
  fleb f_4_0 x = true /\ fltb x f_31_5 = true.
Proof.
  intros Hu Hmax. cbn zeta. rewrite range_lon.
  pose (top1 := of_dyadic (55 * 2 ^ 47 - 1) (-48)).
  pose (top := of_dyadic (63 * 2 ^ 47 - 1) (-48)).
  assert (G1 : good f_4_0) by closed.
  assert (G2 : good f_31_5) by closed.
  assert (G3 : good (of_dyadic 55 (-1))) by closed.
  assert (G5 : good top) by closed.
  assert (N1 : rne (sval (of_dyadic 55 (-1)) * umax / 2 ^ scale) <= sval top1)
    by (apply Z.leb_le; closed).
  assert (N2 : sval f_4_0 + sval top1 <= sval top) by (apply Z.leb_le; closed).
  assert (N3 : sval top < overflow) by (apply Z.ltb_lt; closed).
  assert (N4 : sval top < sval f_31_5) by (apply Z.ltb_lt; closed).
  destruct (affine_sample_bounds f_4_0 (of_dyadic 55 (-1)) top u _
              G1 G3 G5 Hu Hmax N1 N2 N3) as [Hg [Hlo Hhi]].
  clearbody top top1.
  split; [apply fleb_value; assumption |].
  apply fltb_value; try assumption.
  eapply Z.le_lt_trans; eassumption.
Qed.

(** *** Filling a column *)

Lemma random_uniform_state (lower range : float) (g : bitgen) :
  snd (random_uniform lower range g) = {| tape := tape g; cursor := S (cursor g) |}.
Proof. reflexivity. Qed.

Lemma random_uniform_value (lower range : float) (g : bitgen) :
  fst (random_uniform lower range g)
  = fadd lower (fmul range (of_dyadic (tape g (cursor g) mod 2 ^ 53) (-53))).
Proof. reflexivity. Qed.

Lemma fill_spec (P : float -> Prop) (lower range : float) :
  (forall g, P (fst (random_uniform lower range g))) ->
  forall n g,
    length (fst (fill n lower range g)) = n /\
    Forall P (fst (fill n lower range g)) /\
    snd (fill n lower range g) = {| tape := tape g; cursor := (cursor g + n)%nat |}.
Proof.
  intros HP. induction n as [| n IH]; intros g.
  - simpl. repeat split; [constructor |].
    destruct g as [t c]. simpl. f_equal. lia.
  - cbn [fill].
    pose proof (HP g) as Hx. pose proof (random_uniform_state lower range g) as Hg.
    destruct (random_uniform lower range g) as [x g1]. simpl in Hx, Hg. subst g1.
    specialize (IH {| tape := tape g; cursor := S (cursor g) |}).
    destruct (fill n lower range _) as [xs g2]. simpl in *.
    destruct IH as (Hlen & Hall & Hst). subst g2.
    repeat split; [lia | constructor; assumption |]. f_equal. lia.
Qed.

Lemma lat_draw (g : bitgen) :
  let x := fst (random_uniform f_57_5 (fsub f_71_5 f_57_5) g) in
  fleb f_57_5 x = true /\ fleb x f_71_5 = true.
Proof.
  cbn zeta. rewrite random_uniform_value.
  destruct (unit_sample_correct (tape g (cursor g))) as [Hg [_ Hmax]].
  apply lat_sample; assumption.
Qed.

Lemma lon_draw (g : bitgen) :
  let x := fst (random_uniform f_4_0 (fsub f_31_5 f_4_0) g) in
  fleb f_4_0 x = true /\ fltb x f_31_5 = true.
Proof.
  cbn zeta. rewrite random_uniform_value.
  destruct (unit_sample_correct (tape g (cursor g))) as [Hg [_ Hmax]].
  apply lon_sample; assumption.
Qed.

Lemma zip_in_reached_box (lons lats : list float) :
  Forall (fun x => fleb f_4_0 x = true /\ fltb x f_31_5 = true) lons ->
  Forall (fun y => fleb f_57_5 y = true /\ fleb y f_71_5 = true) lats ->
  Forall (fun p => in_reached_box p = true) (zip lons lats).
Proof.
  intros Hlon. revert lats. induction Hlon as [| x lons [Hx1 Hx2] _ IH]; intros lats Hlat.
  - constructor.
  - destruct Hlat as [| y lats [Hy1 Hy2] Hlat]; [constructor |].
    cbn [zip zip_with]. constructor; [| apply IH, Hlat].
    unfold in_reached_box. simpl fst. simpl snd.
    rewrite Hx1, Hx2, Hy1, Hy2. reflexivity.
Qed.

(** *** The columns in closed form *)

Lemma random_uniform_sample (lower range : float) (g : bitgen) :
  random_uniform lower range g
  = (sample_of lower range (tape g (cursor g)),
     {| tape := tape g; cursor := S (cursor g) |}).
Proof. reflexivity. Qed.

(** A column is the image of the next [n] tape cells. *)
Lemma fill_closed_form (lower range : float) (n : nat) (g : bitgen) :
  fill n lower range g
  = (List.map (fun i => sample_of lower range (tape g (cursor g + i)%nat)) (List.seq 0 n),
     {| tape := tape g; cursor := (cursor g + n)%nat |}).
Proof.
  revert g. induction n as [| n IH]; intros g.
  - simpl. destruct g as [t c]. simpl. do 2 f_equal. lia.
  - cbn [fill]. rewrite random_uniform_sample, IH. cbn [tape cursor].
    cbn [List.seq List.map]. rewrite <- List.seq_shift, List.map_map.
    f_equal.
    + f_equal; [f_equal; f_equal; lia |].
      apply List.map_ext. intros i. do 2 f_equal. lia.
    + f_equal. lia.
Qed.

Lemma drawn_table_columns (g : bitgen) (n : nat) :
  lat (drawn_table g n) = fst (fill n f_57_5 (fsub f_71_5 f_57_5) g) /\
  lon (drawn_table g n)
  = fst (fill n f_4_0 (fsub f_31_5 f_4_0) {| tape := tape g; cursor := (cursor g + n)%nat |}).
Proof. rewrite !fill_closed_form. split; reflexivity. Qed.

(** A drawn table has the rows it was asked, all in the box the code
    reaches. *)
Lemma drawn_table_for (g : bitgen) (n : Z) :
  0 <= n -> table_for n (drawn_table g (Z.to_nat n)).
Proof.
  intros Hn. destruct (drawn_table_columns g (Z.to_nat n)) as [Hlat Hlon].
  pose proof (fill_spec (fun x => fleb f_57_5 x = true /\ fleb x f_71_5 = true)
                f_57_5 (fsub f_71_5 f_57_5) lat_draw (Z.to_nat n) g)
    as (Hlen1 & Hall1 & _).
  pose proof (fill_spec (fun x => fleb f_4_0 x = true /\ fltb x f_31_5 = true)
                f_4_0 (fsub f_31_5 f_4_0) lon_draw (Z.to_nat n)
                {| tape := tape g; cursor := (cursor g + Z.to_nat n)%nat |})
    as (Hlen2 & Hall2 & _).
  rewrite <- Hlat in Hlen1, Hall1. rewrite <- Hlon in Hlen2, Hall2.
  unfold table_for, positions. repeat split; try lia.
  apply zip_in_reached_box; assumption.
Qed.

(** *** The statements of the body, one by one *)

Lemma bind_ok {A B : Type} (c : M A) (k : A -> M B) (w w' : World) (a : A) :
  c w = (Ok a, w') -> bind c k w = k a w'.
Proof. intros H. unfold bind. rewrite H. reflexivity. Qed.

Lemma bind_raise {A B : Type} (c : M A) (k : A -> M B) (w w' : World) (e : exn) :
  c w = (Raise e, w') -> bind c k w = (Raise e, w').
Proof. intros H. unfold bind. rewrite H. reflexivity. Qed.

Lemma bounds_get_ok (key : string) (v : float) (w : World) :
  NORWAY_BOUNDS w !! key = Some v -> bounds_get key w = (Ok v, w).
Proof. intros H. unfold bounds_get. rewrite H. reflexivity. Qed.

(** The complete outcome of the body, on any bounding box and any count:
    which lookup or check stops it, in which world, and the table it returns
    otherwise. *)
Lemma body_outcome (n : Z) (w : World) :
  generate_data_body n w
  = match NORWAY_BOUNDS w !! "min_lat" with
    | None => (Raise (KeyError "min_lat"), w)
    | Some lo =>
    match NORWAY_BOUNDS w !! "max_lat" with
    | None => (Raise (KeyError "max_lat"), w)
    | Some hi =>
    if negb (is_finite (fsub hi lo)) then (Raise OverflowError, w)
    else if n <? 0 then (Raise ValueError, w)
    else if too_big n then (Raise ValueError, w)
    else if negb (can_allocate w n) then (Raise MemoryError, w)
    else
    match NORWAY_BOUNDS w !! "min_lon" with
    | None => (Raise (KeyError "min_lon"), advance (Z.to_nat n) w)
    | Some lo' =>
    match NORWAY_BOUNDS w !! "max_lon" with
    | None => (Raise (KeyError "max_lon"), advance (Z.to_nat n) w)
    | Some hi' =>
    if negb (is_finite (fsub hi' lo')) then (Raise OverflowError, advance (Z.to_nat n) w)
    else
      (Ok {| lat := List.map (fun i => sample_of lo (fsub hi lo)
                                         (tape (rng w) (cursor (rng w) + i)%nat))
                      (List.seq 0 (Z.to_nat n));
             lon := List.map (fun i => sample_of lo' (fsub hi' lo')
                                         (tape (rng w) (cursor (rng w) + Z.to_nat n + i)%nat))
                      (List.seq 0 (Z.to_nat n)) |},
       advance (2 * Z.to_nat n) w)
    end end end end.
Proof.
  unfold generate_data_body, bind, bounds_get, np_random_uniform, can_allocate.
  destruct (NORWAY_BOUNDS w !! "min_lat") as [lo |]; [| reflexivity].
  destruct (NORWAY_BOUNDS w !! "max_lat") as [hi |]; [| reflexivity].
  destruct (negb (is_finite (fsub hi lo))); [reflexivity |].
  destruct (n <? 0) eqn:Hn; [reflexivity |].
  destruct (too_big n) eqn:Hbig; [reflexivity |].
  destruct (negb (n <=? max_points + Z.of_nat (room w))) eqn:Hroom; [reflexivity |].
  rewrite fill_closed_form. cbn [NORWAY_BOUNDS cache rng room tape cursor].
  destruct (NORWAY_BOUNDS w !! "min_lon") as [lo' |]; [| reflexivity].
  cbn [NORWAY_BOUNDS cache rng room tape cursor].
  destruct (NORWAY_BOUNDS w !! "max_lon") as [hi' |]; [| reflexivity].
  cbn [NORWAY_BOUNDS cache rng room tape cursor].
  destruct (negb (is_finite (fsub hi' lo'))); [reflexivity |].
  rewrite Hroom, fill_closed_form. cbn [NORWAY_BOUNDS cache rng room tape cursor].
  unfold pd_DataFrame, ret.
  rewrite !List.length_map, !List.length_seq, Nat.eqb_refl.
  unfold advance.
  replace (cursor (rng w) + Z.to_nat n + Z.to_nat n)%nat
    with (cursor (rng w) + 2 * Z.to_nat n)%nat by lia.
  reflexivity.
Qed.

(** With the bounding box of the script assigned, only the count decides. *)
Lemma body_on_literal (n : Z) (w : World) :
  NORWAY_BOUNDS w = bounds_literal ->
  generate_data_body n w
  = if n <? 0 then (Raise ValueError, w)
    else if too_big n then (Raise ValueError, w)
    else if negb (can_allocate w n) then (Raise MemoryError, w)
    else (Ok (drawn_table (rng w) (Z.to_nat n)), advance (2 * Z.to_nat n) w).
Proof.
  intros Hb. rewrite body_outcome, Hb.
  rewrite lookup_min_lat, lookup_max_lat, lookup_min_lon, lookup_max_lon.
  replace (negb (is_finite (fsub f_71_5 f_57_5))) with false by (symmetry; closed).
  replace (negb (is_finite (fsub f_31_5 f_4_0))) with false by (symmetry; closed).
  reflexivity.
Qed.

(** The counts the slider can select pass both size checks on any machine. *)
Lemma small_count_fits (n : Z) (w : World) :
  0 <= n <= max_points ->
  (n <? 0) = false /\ too_big n = false /\ negb (can_allocate w n) = false.
Proof.
  unfold max_points, too_big, can_allocate. intros Hn.
  split; [apply Z.ltb_ge; lia |].
  split; [apply Z.leb_gt; lia |].
  apply negb_false_iff, Z.leb_le. unfold max_points. lia.
Qed.

Lemma body_small (n : Z) (w : World) :
  NORWAY_BOUNDS w = bounds_literal -> 0 <= n <= max_points ->
  generate_data_body n w
  = (Ok (drawn_table (rng w) (Z.to_nat n)), advance (2 * Z.to_nat n) w).
Proof.
  intros Hb Hn. rewrite (body_on_literal n w Hb).
  destruct (small_count_fits n w Hn) as (-> & -> & ->). reflexivity.
Qed.

(** Whatever the body returns on the script's bounding box is a table for
    the count, drawn from the next [2 n] tape cells. *)
Lemma body_table (n : Z) (w : World) (df : DataFrame) (w' : World) :
  NORWAY_BOUNDS w = bounds_literal ->
  generate_data_body n w = (Ok df, w') ->
  0 <= n /\ df = drawn_table (rng w) (Z.to_nat n) /\
  w' = advance (2 * Z.to_nat n) w /\ table_for n df.
Proof.
  intros Hb. rewrite (body_on_literal n w Hb).
  destruct (Z.ltb_spec n 0) as [Hn | Hn]; [discriminate |].
  destruct (too_big n); [discriminate |].
  destruct (negb (can_allocate w n)); [discriminate |].
  intros [= <- <-]. repeat split; try lia; apply (drawn_table_for (rng w) n Hn).
Qed.

(** On the script's bounding box a failing body leaves the world alone. *)
Lemma body_raise (n : Z) (w : World) (e : exn) (w' : World) :
  NORWAY_BOUNDS w = bounds_literal ->
  generate_data_body n w = (Raise e, w') -> w' = w.
Proof.
  intros Hb. rewrite (body_on_literal n w Hb).
  destruct (n <? 0); [intros [= _ <-]; reflexivity |].
  destruct (too_big n); [intros [= _ <-]; reflexivity |].
  destruct (negb (can_allocate w n)); [intros [= _ <-]; reflexivity | discriminate].
Qed.

(** *** The memo *)

Lemma generate_data_hit (n : Z) (df : DataFrame) (w : World) :
  cache w !! n = Some df -> generate_data n w = (Ok df, w).
Proof. intros H. unfold generate_data, cache_data. rewrite H. reflexivity. Qed.

Lemma generate_data_miss (n : Z) (w : World) :
  cache w !! n = None ->
  generate_data n w
  = match generate_data_body n w with
    | (Ok df, w') => (Ok df, memoize n df w')
    | (Raise e, w') => (Raise e, w')
    end.
Proof. intros H. unfold generate_data, cache_data. rewrite H. reflexivity. Qed.

(** [generate_data] on the script's bounding box, in exact form: a hit
    changes nothing; a miss fails on the count alone, with nothing drawn and
    nothing stored, or draws [2 n] samples and memoizes their table. *)
Lemma generate_data_exact (n : Z) (w : World) :
  NORWAY_BOUNDS w = bounds_literal ->
  generate_data n w
  = match cache w !! n with
    | Some df => (Ok df, w)
    | None =>
        if n <? 0 then (Raise ValueError, w)
        else if too_big n then (Raise ValueError, w)
        else if negb (can_allocate w n) then (Raise MemoryError, w)
        else (Ok (drawn_table (rng w) (Z.to_nat n)),
              memoize n (drawn_table (rng w) (Z.to_nat n)) (advance (2 * Z.to_nat n) w))
    end.
Proof.
  intros Hb. destruct (cache w !! n) as [df |] eqn:Hc.
  - apply generate_data_hit, Hc.
  - rewrite (generate_data_miss n w Hc), (body_on_literal n w Hb).
    destruct (n <? 0); [reflexivity |].
    destruct (too_big n); [reflexivity |].
    destruct (negb (can_allocate w n)); reflexivity.
Qed.

Lemma generate_data_negative_miss (n : Z) (w : World) :
  NORWAY_BOUNDS w = bounds_literal -> n < 0 -> cache w !! n = None ->
  generate_data n w = (Raise ValueError, w).
Proof.
  intros Hb Hn Hc. rewrite (generate_data_exact n w Hb), Hc.
  rewrite (proj2 (Z.ltb_lt n 0) Hn). reflexivity.
Qed.

Lemma cache_ok_memoize (n : Z) (df : DataFrame) (w : World) :
  cache_ok w -> table_for n df -> cache_ok (memoize n df w).
Proof.
  intros Hok Ht k df'. unfold memoize. simpl cache.
  rewrite lookup_insert. case_decide as E.
  - subst k. intros [= <-]. exact Ht.
  - apply Hok.
Qed.

Lemma cache_ok_advance (k : nat) (w : World) : cache_ok w -> cache_ok (advance k w).
Proof. intros H. exact H. Qed.

(** Whatever a call returns is in the memo afterwards, and the call keeps
    the bounding box and the invariant of the memo. *)
Lemma generate_data_result (n : Z) (w : World) (df : DataFrame) (w' : World) :
  NORWAY_BOUNDS w = bounds_literal ->
  generate_data n w = (Ok df, w') ->
  NORWAY_BOUNDS w' = bounds_literal /\
  cache w' !! n = Some df /\
  room w' = room w /\
  (cache_ok w -> table_for n df /\ cache_ok w').
Proof.
  intros Hb. rewrite (generate_data_exact n w Hb).
  destruct (cache w !! n) as [d |] eqn:Hc.
  - intros [= <- <-].
    split; [exact Hb |]. split; [exact Hc |]. split; [reflexivity |].
    intros Hok. split; [apply (Hok n d Hc) | exact Hok].
  - destruct (Z.ltb_spec n 0) as [Hn | Hn]; [discriminate |].
    destruct (too_big n); [discriminate |].
    destruct (negb (can_allocate w n)); [discriminate |].
    intros [= <- <-].
    split; [exact Hb |].
    split; [unfold memoize; simpl cache; apply lookup_insert_eq |].
    split; [reflexivity |].
    intros Hok. pose proof (drawn_table_for (rng w) n Hn) as Ht.
    split; [exact Ht |].
    apply cache_ok_memoize; [apply cache_ok_advance, Hok | exact Ht].
Qed.

(** With the bounding box assigned, [generate_data] succeeds on every count
    the slider can select and leaves the table in the memo. *)
Lemma generate_data_ok (n : Z) (w : World) :
  NORWAY_BOUNDS w = bounds_literal -> 0 <= n <= max_points ->
  exists df w',
    generate_data n w = (Ok df, w') /\
    NORWAY_BOUNDS w' = bounds_literal /\
    cache w' !! n = Some df /\
    (cache_ok w -> table_for n df /\ cache_ok w').
Proof.
  intros Hb Hn.
  assert (Hex : exists df w', generate_data n w = (Ok df, w')).
  { rewrite (generate_data_exact n w Hb).
    destruct (cache w !! n) as [d |]; [eauto |].
    destruct (small_count_fits n w Hn) as (-> & -> & ->). eauto. }
  destruct Hex as (df & w' & Hg). exists df, w'.
  destruct (generate_data_result n w df w' Hb Hg) as (H1 & H2 & _ & H3). auto.
Qed.

Lemma assign_idempotent (w : World) :
  NORWAY_BOUNDS w = bounds_literal ->
  snd (assign_NORWAY_BOUNDS bounds_literal w) = w.
Proof. intros H. destruct w as [b c g r]. simpl in *. subst b. reflexivity. Qed.

Lemma call_generate_data_eq (n : Z) (w : World) :
  call_generate_data n w
  = generate_data n (snd (assign_NORWAY_BOUNDS bounds_literal w)).
Proof. reflexivity. Qed.

Lemma call_generate_data_ok (n : Z) (w : World) :
  0 <= n <= max_points ->
  exists df w',
    call_generate_data n w = (Ok df, w') /\
    NORWAY_BOUNDS w' = bounds_literal /\
    cache w' !! n = Some df /\
    (cache_ok w -> table_for n df /\ cache_ok w').
Proof.
  intros Hn. rewrite call_generate_data_eq.
  destruct (generate_data_ok n (snd (assign_NORWAY_BOUNDS bounds_literal w))
              eq_refl Hn) as (df & w' & H1 & H2 & H3 & H4).
  exists df, w'. split; [exact H1 |]. split; [exact H2 |]. split; [exact H3 |].
  intros Hok. apply H4. exact Hok.
Qed.

(** The call the script makes, in exact form. *)
Lemma call_exact (n : Z) (w : World) :
  call_generate_data n w
  = let w1 := snd (assign_NORWAY_BOUNDS bounds_literal w) in
    match cache w !! n with
    | Some df => (Ok df, w1)
    | None =>
        if n <? 0 then (Raise ValueError, w1)
        else if too_big n then (Raise ValueError, w1)
        else if negb (can_allocate w n) then (Raise MemoryError, w1)
        else (Ok (drawn_table (rng w) (Z.to_nat n)),
              memoize n (drawn_table (rng w) (Z.to_nat n))
                (advance (2 * Z.to_nat n) w1))
    end.
Proof.
  rewrite call_generate_data_eq.
  exact (generate_data_exact n (snd (assign_NORWAY_BOUNDS bounds_literal w)) eq_refl).
Qed.

Lemma call_small (n : Z) (w : World) :
  0 <= n <= max_points ->
  call_generate_data n w
  = let w1 := snd (assign_NORWAY_BOUNDS bounds_literal w) in
    match cache w !! n with
    | Some df => (Ok df, w1)
    | None =>
        (Ok (drawn_table (rng w) (Z.to_nat n)),
         memoize n (drawn_table (rng w) (Z.to_nat n)) (advance (2 * Z.to_nat n) w1))
    end.
Proof.
  intros Hn. rewrite call_exact. cbn zeta.
  destruct (cache w !! n); [reflexivity |].
  destruct (small_count_fits n w Hn) as (-> & -> & ->). reflexivity.
Qed.

(** *** Calls made inside a session *)

Lemma call_generate_data_negative (n : Z) (w : World) :
  cache_ok w -> n < 0 ->
  call_generate_data n w
  = (Raise ValueError, snd (assign_NORWAY_BOUNDS bounds_literal w)).
Proof.
  intros Hok Hn. rewrite call_generate_data_eq.
  apply generate_data_negative_miss; [reflexivity | exact Hn |].
  simpl cache. destruct (cache w !! n) as [df |] eqn:Hc; [| reflexivity].
  destruct (Hok n df Hc) as [H0 _]. lia.
Qed.

(** Whatever table a call returns in a session, it is a table for the
    count that was asked. *)
Lemma call_generate_data_table (n : Z) (w : World) (df : DataFrame) (w' : World) :
  cache_ok w -> call_generate_data n w = (Ok df, w') -> table_for n df.
Proof.
  intros Hok Hcall. rewrite call_generate_data_eq in Hcall.
  destruct (generate_data_result n (snd (assign_NORWAY_BOUNDS bounds_literal w))
              df w' eq_refl Hcall) as (_ & _ & _ & H).
  exact (proj1 (H Hok)).
Qed.

Lemma fltb_fleb (x y : float) : fltb x y = true -> fleb x y = true.
Proof.
  unfold fltb, fleb, SFltb, SFleb.
  destruct (SFcompare x y) as [[| |] |]; intros H; try discriminate; reflexivity.
Qed.

Lemma in_reached_box_in_box (p : float * float) :
  in_reached_box p = true -> in_box p = true.
Proof.
  unfold in_reached_box, in_box. rewrite !andb_true_iff.
  intros [[[H1 H2] H3] H4]. auto using fltb_fleb.
Qed.

(** The second of two calls with the same count finds the world exactly
    as the first one left it and returns what the first one returned. *)
Lemma call_generate_data_twice (n : Z) (w : World) :
  call_generate_data n (snd (call_generate_data n w)) = call_generate_data n w.
Proof.
  rewrite (call_generate_data_eq n w).
  set (w1 := snd (assign_NORWAY_BOUNDS bounds_literal w)).
  assert (Hb1 : NORWAY_BOUNDS w1 = bounds_literal) by reflexivity.
  clearbody w1.
  assert (Hstable : forall r w2, generate_data n w1 = (r, w2) ->
                    NORWAY_BOUNDS w2 = bounds_literal ->
                    generate_data n w2 = (r, w2) ->
                    call_generate_data n (generate_data n w1).2 = generate_data n w1).
  { intros r w2 H1 Hb2 H2. rewrite H1. simpl snd.
    rewrite call_generate_data_eq, (assign_idempotent w2 Hb2). exact H2. }
  destruct (generate_data n w1) as [[df | e] w2] eqn:Hg.
  - destruct (generate_data_result n w1 df w2 Hb1 Hg) as (Hb2 & Hc2 & _).
    apply (Hstable (Ok df) w2); auto using generate_data_hit.
  - assert (w2 = w1).
    { rewrite (generate_data_exact n w1 Hb1) in Hg.
      destruct (cache w1 !! n); [discriminate |].
      destruct (n <? 0); [injection Hg as _ <-; reflexivity |].
      destruct (too_big n); [injection Hg as _ <-; reflexivity |].
      destruct (negb (can_allocate w1 n)); [injection Hg as _ <-; reflexivity | discriminate]. }
    subst w2. apply (Hstable (Raise e) w1); auto.
Qed.

(** A call changes the memo at most at its own key, and only on success. *)
Lemma body_keeps_cache (n : Z) : keeps_cache (generate_data_body n).
Proof.
  intros w. rewrite body_outcome.
  repeat match goal with
         | |- context [match ?x with _ => _ end] => destruct x
         end; reflexivity.
Qed.

Lemma body_only_draws (n : Z) : only_draws (generate_data_body n).
Proof.
  intros w. rewrite body_outcome.
  repeat match goal with
         | |- context [match ?x with _ => _ end] => destruct x
         end; simpl; split; try reflexivity; lia.
Qed.

Lemma memo_rule (n : Z) (w : World) :
  cache (snd (generate_data n w))
  = match fst (generate_data n w) with
    | Ok df => <[n := df]> (cache w)
    | Raise _ => cache w
    end.
Proof.
  unfold generate_data, cache_data.
  destruct (cache w !! n) as [df |] eqn:Hc.
  - simpl. symmetry. apply insert_id, Hc.
  - pose proof (body_keeps_cache n w) as Hk.
    destruct (generate_data_body n w) as [[df | e] w1]; simpl in *; rewrite Hk; reflexivity.
Qed.

Lemma call_memo_rule (n : Z) (w : World) :
  cache (snd (call_generate_data n w))
  = match fst (call_generate_data n w) with
    | Ok df => <[n := df]> (cache w)
    | Raise _ => cache w
    end.
Proof. exact (memo_rule n (snd (assign_NORWAY_BOUNDS bounds_literal w))). Qed.

(** *** Widgets and the script *)

(** A slider whose initial value lies on its track returns a value of the
    track, whatever the browser reports. *)
Lemma slider_on_track (s : Slider) (reported : option Z) :
  min_value s <= value s <= max_value s ->
  min_value s <= slider s reported <= max_value s.
Proof.
  intros Hv. unfold slider. destruct reported as [v |]; [| exact Hv].
  destruct (Z.leb_spec (min_value s) v); destruct (Z.leb_spec v (max_value s));
    simpl; lia.
Qed.

Lemma num_points_range (reported : option Z) :
  100 <= slider num_points_cfg reported <= 10000.
Proof. apply (slider_on_track num_points_cfg). simpl. lia. Qed.

Lemma hexagon_radius_range (reported : option Z) :
  1000 <= slider hexagon_radius_cfg reported <= 50000.
Proof. apply (slider_on_track hexagon_radius_cfg). simpl. lia. Qed.

Lemma elevation_scale_range (reported : option Z) :
  1 <= slider elevation_scale_cfg reported <= 100.
Proof. apply (slider_on_track elevation_scale_cfg). simpl. lia. Qed.

Lemma num_points_small (reported : option Z) :
  0 <= slider num_points_cfg reported <= max_points.
Proof. pose proof (num_points_range reported). unfold max_points. lia. Qed.

(** The script is its call of [generate_data] followed by either the
    rerun request or the scene. *)
Lemma script_eq (ui : Widgets) (w : World) :
  script ui w
  = match call_generate_data (slider num_points_cfg (num_points_handle ui)) w with
    | (Raise e, w2) => (Failed e, w2)
    | (Ok data, w2) =>
        if regenerate_clicked ui then (Rerun, snd (cache_data_clear w2))
        else
          (Rendered
             {| generated_points := len data;
                chart := deck (layer data
                                 (slider hexagon_radius_cfg (hexagon_radius_handle ui))
                                 (slider elevation_scale_cfg (elevation_scale_handle ui)))
                           view_state;
                raw_sample :=
                  if show_raw_checked ui then Some (head 100 data) else None |},
           w2)
    end.
Proof. reflexivity. Qed.

Lemma cache_ok_clear (w : World) : cache_ok (snd (cache_data_clear w)).
Proof. intros n df. simpl. rewrite lookup_empty. discriminate. Qed.

Lemma script_cache_ok (ui : Widgets) (w : World) :
  cache_ok w -> cache_ok (snd (script ui w)).
Proof.
  intros Hok. rewrite script_eq.
  destruct (call_generate_data_ok _ w (num_points_small (num_points_handle ui)))
    as (df & w2 & Hcall & _ & _ & Hinv).
  rewrite Hcall. destruct (Hinv Hok) as [_ Hok2].
  destruct (regenerate_clicked ui); [apply cache_ok_clear | exact Hok2].
Qed.

Lemma run_cache_ok (ui : Widgets) (w : World) :
  cache_ok w -> cache_ok (snd (run ui w)).
Proof.
  intros Hok. unfold run.
  pose proof (script_cache_ok ui w Hok) as H1.
  destruct (script ui w) as [[p | | e] w1]; simpl in *; try exact H1.
  apply script_cache_ok, H1.
Qed.

Lemma cache_ok_fresh (g : bitgen) (spare : nat) : cache_ok (fresh g spare).
Proof. intros n df. simpl. rewrite lookup_empty. discriminate. Qed.

(** Every table in the memo of a running session was produced for its key. *)
Lemma session_cache_ok (uis : list Widgets) (w : World) :
  cache_ok w -> cache_ok (session uis w).
Proof.
  revert w. induction uis as [| ui uis IH]; intros w Hok; [exact Hok |].
  simpl. apply IH, run_cache_ok, Hok.
Qed.

(** A script that was not asked to regenerate never asks for a rerun. *)
Lemma run_released (ui : Widgets) (w : World) :
  run (release_button ui) w = script (release_button ui) w.
Proof.
  unfold run. rewrite script_eq.
  destruct (call_generate_data _ w) as [[df | e] w2]; reflexivity.
Qed.

(** *** The bounding box is only read *)

Lemma keeps_bounds_bind {A B : Type} (c : M A) (k : A -> M B) :
  keeps_bounds c -> (forall a, keeps_bounds (k a)) -> keeps_bounds (bind c k).
Proof.
  intros Hc Hk w. unfold bind. specialize (Hc w).
  destruct (c w) as [[a | e] w1]; simpl in *; [| exact Hc].
  rewrite (Hk a w1). exact Hc.
Qed.

Lemma keeps_bounds_get (key : string) : keeps_bounds (bounds_get key).
Proof. intros w. unfold bounds_get. destruct (NORWAY_BOUNDS w !! key); reflexivity. Qed.

Lemma keeps_bounds_uniform (low high : float) (size : Z) :
  keeps_bounds (np_random_uniform low high size).
Proof.
  intros w. unfold np_random_uniform.
  destruct (negb (is_finite (fsub high low))); [reflexivity |].
  destruct (size <? 0); [reflexivity |].
  destruct (too_big size); [reflexivity |].
  destruct (negb (can_allocate w size)); [reflexivity |].
  destruct (fill (Z.to_nat size) low (fsub high low) (rng w)). reflexivity.
Qed.

Lemma keeps_bounds_DataFrame (lats lons : list float) :
  keeps_bounds (pd_DataFrame lats lons).
Proof.
  intros w. unfold pd_DataFrame. destruct (Nat.eqb (length lats) (length lons)); reflexivity.
Qed.

Lemma keeps_bounds_body (n : Z) : keeps_bounds (generate_data_body n).
Proof.
  unfold generate_data_body.
  repeat (apply keeps_bounds_bind; [| intros ?]);
    auto using keeps_bounds_get, keeps_bounds_uniform, keeps_bounds_DataFrame.
Qed.

Lemma keeps_bounds_generate_data (n : Z) : keeps_bounds (generate_data n).
Proof.
  intros w. unfold generate_data, cache_data.
  destruct (cache w !! n); [reflexivity |].
  pose proof (keeps_bounds_body n w) as H.
  destruct (generate_data_body n w) as [[df | e] w1]; exact H.
Qed.

Lemma script_bounds (ui : Widgets) (w : World) :
  NORWAY_BOUNDS (snd (script ui w)) = bounds_literal.
Proof.
  rewrite script_eq, call_generate_data_eq.
  pose proof (keeps_bounds_generate_data
                (slider num_points_cfg (num_points_handle ui))
                (snd (assign_NORWAY_BOUNDS bounds_literal w))) as H.
  destruct (generate_data _ _) as [[df | e] w2]; simpl in *; [| exact H].
  destruct (regenerate_clicked ui); exact H.
Qed.

Lemma run_bounds (ui : Widgets) (w : World) :
  NORWAY_BOUNDS (snd (run ui w)) = bounds_literal.
Proof.
  unfold run. pose proof (script_bounds ui w) as H.
  destruct (script ui w) as [[p | | e] w1]; simpl in *; try exact H.
  apply script_bounds.
Qed.

(** *** What a run of the script produces *)

(** A pass of the script either asks for a rerun (button clicked) or
    renders; it never fails. *)
Lemma script_outcome (ui : Widgets) (w : World) :
  exists df w2,
    call_generate_data (slider num_points_cfg (num_points_handle ui)) w = (Ok df, w2) /\
    script ui w
    = if regenerate_clicked ui then (Rerun, snd (cache_data_clear w2))
      else
        (Rendered
           {| generated_points := len df;
              chart := deck (layer df
                               (slider hexagon_radius_cfg (hexagon_radius_handle ui))
                               (slider elevation_scale_cfg (elevation_scale_handle ui)))
                         view_state;
              raw_sample := if show_raw_checked ui then Some (head 100 df) else None |},
         w2).
Proof.
  destruct (call_generate_data_ok _ w (num_points_small (num_points_handle ui)))
    as (df & w2 & Hcall & _).
  exists df, w2. split; [exact Hcall |].
  rewrite script_eq, Hcall. reflexivity.
Qed.

(** A complete run always renders a page, and the page carries the scene
    built from the table of the last pass. After a click the checkbox reads
    [False], so the page carries no raw sample. *)
Lemma run_renders (ui : Widgets) (w : World) :
  exists df w',
    run ui w
    = (Rendered
         {| generated_points := len df;
            chart := deck (layer df
                             (slider hexagon_radius_cfg (hexagon_radius_handle ui))
                             (slider elevation_scale_cfg (elevation_scale_handle ui)))
                       view_state;
            raw_sample :=
              if regenerate_clicked ui then None
              else if show_raw_checked ui then Some (head 100 df) else None |},
       w').
Proof.
  unfold run. destruct (script_outcome ui w) as (df & w2 & _ & Hs). rewrite Hs.
  destruct (regenerate_clicked ui) eqn:Hc.
  - destruct (script_outcome (rerun_widgets ui) (snd (cache_data_clear w2)))
      as (df' & w3 & _ & Hs').
    rewrite Hs'. simpl. exists df', w3. reflexivity.
  - exists df, w2. reflexivity.
Qed.

(** The pass in which the button reads [True]: it ends in a rerun request,
    with an empty memo and the bounding box assigned. *)
Lemma clicked_pass (ui : Widgets) (w : World) :
  regenerate_clicked ui = true ->
  exists w1,
    script ui w = (Rerun, w1) /\
    cache w1 = ∅ /\
    NORWAY_BOUNDS w1 = bounds_literal /\
    run ui w = script (rerun_widgets ui) w1.
Proof.
  intros Hclick.
  destruct (script_outcome ui w) as (df & w2 & _ & Hs). rewrite Hclick in Hs.
  pose proof (script_bounds ui w) as Hb. rewrite Hs in Hb.
  exists (snd (cache_data_clear w2)).
  split; [exact Hs |]. split; [reflexivity |]. split; [exact Hb |].
  unfold run. rewrite Hs. reflexivity.
Qed.

(** The page of a run shows the table the memo holds for the selected
    count when the run is over. *)
Lemma run_shows_memo (ui : Widgets) (w : World) :
  cache_ok w ->
  exists df w',
    run ui w
    = (Rendered
         {| generated_points := len df;
            chart := deck (layer df
                             (slider hexagon_radius_cfg (hexagon_radius_handle ui))
                             (slider elevation_scale_cfg (elevation_scale_handle ui)))
                       view_state;
            raw_sample :=
              if regenerate_clicked ui then None
              else if show_raw_checked ui then Some (head 100 df) else None |},
       w') /\
    cache w' !! slider num_points_cfg (num_points_handle ui) = Some df /\
    table_for (slider num_points_cfg (num_points_handle ui)) df.
Proof.
  intros Hok.
  pose proof (num_points_small (num_points_handle ui)) as Hn.
  set (n := slider num_points_cfg (num_points_handle ui)) in *.
  unfold run. rewrite script_eq. fold n.
  destruct (call_generate_data_ok n w Hn) as (df & w2 & Hcall & _ & Hc & Hinv).
  rewrite Hcall. destruct (Hinv Hok) as [Ht Hok2].
  destruct (regenerate_clicked ui) eqn:Hclick.
  - rewrite script_eq.
    change (num_points_handle (rerun_widgets ui)) with (num_points_handle ui). fold n.
    destruct (call_generate_data_ok n (snd (cache_data_clear w2)) Hn)
      as (df' & w3 & Hcall' & _ & Hc' & Hinv').
    rewrite Hcall'. destruct (Hinv' (cache_ok_clear w2)) as [Ht' _].
    exists df', w3. simpl. auto.
  - exists df, w2. auto.
Qed.

(** *** The keys of the memo in a session *)

Lemma keys_on_track_fresh (g : bitgen) (spare : nat) : keys_on_track (fresh g spare).
Proof. intros n df. simpl. rewrite lookup_empty. discriminate. Qed.

Lemma script_keys (ui : Widgets) (w : World) :
  keys_on_track w -> keys_on_track (snd (script ui w)).
Proof.
  intros Hk. rewrite script_eq.
  pose proof (num_points_range (num_points_handle ui)) as Hn.
  pose proof (call_memo_rule (slider num_points_cfg (num_points_handle ui)) w) as Hm.
  destruct (call_generate_data _ w) as [[df | e] w2]; simpl in *.
  - destruct (regenerate_clicked ui); simpl.
    + intros n d Hl. simpl in Hl. rewrite lookup_empty in Hl. discriminate.
    + intros n d. rewrite Hm, lookup_insert. case_decide as E.
      * subst n. intros _. exact Hn.
      * apply Hk.
  - intros n d. rewrite Hm. apply Hk.
Qed.

Lemma run_keys (ui : Widgets) (w : World) :
  keys_on_track w -> keys_on_track (snd (run ui w)).
Proof.
  intros Hk. unfold run.
  pose proof (script_keys ui w Hk) as H1.
  destruct (script ui w) as [[p | | e] w1]; simpl in *; try exact H1.
  apply script_keys, H1.
Qed.

Lemma session_keys (uis : list Widgets) (w : World) :
  keys_on_track w -> keys_on_track (session uis w).
Proof.
  revert w. induction uis as [| ui uis IH]; intros w Hk; [exact Hk |].
  simpl. apply IH, run_keys, Hk.
Qed.

(** *** Samples as a function of the draw *)

Lemma unit_sample_value (k : Z) :
  good (of_dyadic (k mod 2 ^ 53) (-53)) /\
  sval (of_dyadic (k mod 2 ^ 53) (-53)) = (k mod 2 ^ 53) * 2 ^ (scale - 53).
Proof.
  pose proof scale_eq as HS.
  destruct (div_mod_pos k (2 ^ 53) ltac:(lia)) as [_ Hk].
  set (K := k mod 2 ^ 53) in *.
  assert (Hrep : representable (K * 2 ^ (-53 + scale)))
    by (apply representable_small; lia).
  assert (Hp : 0 < 2 ^ (-53 + scale)) by (apply pow2_pos; lia).
  assert (Hle : K * 2 ^ (-53 + scale) <= umax).
  { unfold umax. replace (scale - 53) with (-53 + scale) by lia. nia. }
  assert (Hmax : umax < overflow) by (apply Z.ltb_lt; vm_compute; reflexivity).
  destruct (of_dyadic_correct K (-53)) as [Hg Hv]; [lia | lia | |].
  - rewrite (rne_exact _ Hrep). lia.
  - rewrite (rne_exact _ Hrep) in Hv. split; [exact Hg |].
    rewrite Hv. replace (scale - 53) with (-53 + scale) by lia. reflexivity.
Qed.

(** The value of [low + range * u]: two roundings of the exact expression. *)
Lemma affine_sample_value (low range top u : float) (top1 : Z) :
  good low -> good range -> good top -> good u ->
  sval u <= umax ->
  rne (sval range * umax / 2 ^ scale) <= top1 ->
  sval low + top1 <= sval top ->
  sval top < overflow ->
  good (fadd low (fmul range u)) /\
  sval (fadd low (fmul range u))
  = rne (sval low + rne (sval range * sval u / 2 ^ scale)).
Proof.
  intros Hlow Hrange Htop Hu Humax Hprod Hsum Hov.
  pose proof (value_nonneg low) as Hl0. pose proof (value_nonneg range) as Hr0.
  pose proof (value_nonneg u) as Hu0.
  assert (Hs : 0 < 2 ^ scale) by (apply pow2_pos; rewrite scale_eq; lia).
  set (p := sval range * sval u / 2 ^ scale).
  assert (Hp1 : p <= sval range * umax / 2 ^ scale)
    by (apply Z.div_le_mono; [exact Hs | nia]).
  assert (Hm1 : rne p <= top1)
    by (etransitivity; [apply rne_mono, Hp1 | exact Hprod]).
  destruct (fmul_correct range u Hrange Hu) as [Hgm Hvm]; [fold p; lia |].
  fold p in Hvm.
  assert (Hx1 : rne (sval low + sval (fmul range u)) <= sval top).
  { apply rne_le; [apply good_representable, Htop | lia]. }
  destruct (fadd_correct low (fmul range u) Hlow Hgm) as [Hgx Hvx]; [lia |].
  split; [exact Hgx |]. rewrite Hvx, Hvm. reflexivity.
Qed.

(** A larger draw never gives a smaller sample. *)
Lemma sample_of_mono (low range top : float) (top1 : Z) (k1 k2 : Z) :
  good low -> good range -> good top ->
  rne (sval range * umax / 2 ^ scale) <= top1 ->
  sval low + top1 <= sval top ->
  sval top < overflow ->
  k1 mod 2 ^ 53 <= k2 mod 2 ^ 53 ->
  fleb (sample_of low range k1) (sample_of low range k2) = true.
Proof.
  intros Hlow Hrange Htop Hprod Hsum Hov Hk. unfold sample_of.
  destruct (unit_sample_value k1) as [G1 V1]. destruct (unit_sample_value k2) as [G2 V2].
  destruct (unit_sample_correct k1) as [_ [_ M1]].
  destruct (unit_sample_correct k2) as [_ [_ M2]]. cbn zeta in M1, M2.
  destruct (affine_sample_value low range top _ top1 Hlow Hrange Htop G1 M1 Hprod Hsum Hov)
    as [Gx Vx].
  destruct (affine_sample_value low range top _ top1 Hlow Hrange Htop G2 M2 Hprod Hsum Hov)
    as [Gy Vy].
  apply fleb_value; [exact Gx | exact Gy |].
  rewrite Vx, Vy, V1, V2.
  pose proof (value_nonneg range) as Hr0.
  assert (Hs : 0 < 2 ^ scale) by (apply pow2_pos; rewrite scale_eq; lia).
  assert (Hu : 0 < 2 ^ (scale - 53)) by (apply pow2_pos; rewrite scale_eq; lia).
  apply rne_mono. apply Z.add_le_mono_l. apply rne_mono.
  apply Z.div_le_mono; [exact Hs |].
  apply Z.mul_le_mono_nonneg_l; [exact Hr0 |].
  apply Z.mul_le_mono_nonneg_r; [lia | exact Hk].
Qed.

Lemma lat_sample_mono (k1 k2 : Z) :
  k1 mod 2 ^ 53 <= k2 mod 2 ^ 53 ->
  fleb (sample_of f_57_5 (fsub f_71_5 f_57_5) k1)
       (sample_of f_57_5 (fsub f_71_5 f_57_5) k2) = true.
Proof.
  rewrite range_lat.
  assert (G1 : good f_57_5) by closed.
  assert (G2 : good f_71_5) by closed.
  assert (G3 : good (of_dyadic 14 0)) by closed.
  assert (N1 : rne (sval (of_dyadic 14 0) * umax / 2 ^ scale) <= sval (of_dyadic 14 0))
    by (apply Z.leb_le; closed).
  assert (N2 : sval f_57_5 + sval (of_dyadic 14 0) <= sval f_71_5)
    by (apply Z.leb_le; closed).
  assert (N3 : sval f_71_5 < overflow) by (apply Z.ltb_lt; closed).
  exact (sample_of_mono f_57_5 (of_dyadic 14 0) f_71_5 _ k1 k2 G1 G3 G2 N1 N2 N3).
Qed.

Lemma lon_sample_mono (k1 k2 : Z) :
  k1 mod 2 ^ 53 <= k2 mod 2 ^ 53 ->
  fleb (sample_of f_4_0 (fsub f_31_5 f_4_0) k1)
       (sample_of f_4_0 (fsub f_31_5 f_4_0) k2) = true.
Proof.
  rewrite range_lon.
  pose (top1 := of_dyadic (55 * 2 ^ 47 - 1) (-48)).
  pose (top := of_dyadic (63 * 2 ^ 47 - 1) (-48)).
  assert (G1 : good f_4_0) by closed.
  assert (G3 : good (of_dyadic 55 (-1))) by closed.
  assert (G5 : good top) by closed.
  assert (N1 : rne (sval (of_dyadic 55 (-1)) * umax / 2 ^ scale) <= sval top1)
    by (apply Z.leb_le; closed).
  assert (N2 : sval f_4_0 + sval top1 <= sval top) by (apply Z.leb_le; closed).
  assert (N3 : sval top < overflow) by (apply Z.ltb_lt; closed).
  exact (sample_of_mono f_4_0 (of_dyadic 55 (-1)) top _ k1 k2 G1 G3 G5 N1 N2 N3).
Qed.

(** *** Calls that hit, and calls that raise *)


(** A returned table is the entry of the memo afterwards. *)
Lemma call_ok_memoized (n : Z) (w : World) (df : DataFrame) :
  fst (call_generate_data n w) = Ok df ->
  cache (snd (call_generate_data n w)) !! n = Some df.
Proof. intros H. rewrite call_memo_rule, H. apply lookup_insert_eq. Qed.




End GeneratorFacts.

(** ** Properties of the script *)

Import Binary64Facts GeneratorFacts.

(** C1. For every valid point count N in [100, 10000], at any moment of any
    session, [generate_data(N)] returns a table of exactly N rows, that is,
    exactly N coordinate pairs. *)
Theorem generate_data_row_count
  (g : bitgen) (spare : nat) (uis : list Widgets) (N : Z) :
  100 <= N <= 10000 ->
  exists df w',
    call_generate_data N (session uis (fresh g spare)) = (Ok df, w') /\
    len df = Z.to_nat N /\
    length (positions df) = Z.to_nat N.
Proof.
  intros HN.
  assert (Hsmall : 0 <= N <= max_points) by (unfold max_points; lia).
  destruct (call_generate_data_ok N (session uis (fresh g spare)) Hsmall)
    as (df & w' & Hcall & _ & _ & Hinv).
  destruct Hinv as [(_ & Hlat & Hlon & _) _];
    [apply session_cache_ok, cache_ok_fresh |].
  exists df, w'. split; [exact Hcall |].
  unfold len, positions. rewrite length_zip. lia.
Qed.

Lemma generate_data_row_count_witness :
  100 <= 100 <= 10000 /\
  exists df w',
    call_generate_data 100 (session [idle_ui] (fresh sample_gen 0)) = (Ok df, w') /\
    len df = Z.to_nat 100 /\
    length (positions df) = Z.to_nat 100.
Proof.
  split; [lia |].
  apply (generate_data_row_count sample_gen 0 [idle_ui] 100). lia.
Defined.

(** C2. Every coordinate pair of every table that [generate_data(N)]
    returns, for every N and at any moment of any session, has its longitude
    in [4.0, 31.5] and its latitude in [57.5, 71.5], as binary64 comparisons. *)
Theorem generated_points_in_box
  (g : bitgen) (spare : nat) (uis : list Widgets) (N : Z)
  (df : DataFrame) (w' : World) :
  call_generate_data N (session uis (fresh g spare)) = (Ok df, w') ->
  Forall (fun p => in_box p = true) (positions df).
Proof.
  intros Hcall.
  pose proof (call_generate_data_table N _ df w'
                (session_cache_ok uis _ (cache_ok_fresh g spare)) Hcall)
    as (_ & _ & _ & Hbox).
  eapply Forall_impl; [exact Hbox |].
  intros p Hp. apply in_reached_box_in_box, Hp.
Qed.

Lemma generated_points_in_box_witness :
  Forall (fun p => in_box p = true)
    (positions (table_of (call_generate_data 100 (session [low_ui] (fresh sample_gen 0))))).
Proof.
  apply (generated_points_in_box sample_gen 0 [low_ui] 100 _
           (snd (call_generate_data 100 (session [low_ui] (fresh sample_gen 0))))).
  vm_compute. reflexivity.
Defined.

(** C9, as stated, fails: with a first draw of [1 - 2^-53] the first
    latitude of [generate_data(100)] is rounded to 71.5 itself, so the pair
    is not strictly below the upper latitude bound. *)
Lemma strict_upper_latitude_fails :
  exists df w' x,
    call_generate_data 100 (session [] (fresh top_gen 0)) = (Ok df, w') /\
    positions df !! 0%nat = Some (x, f_71_5) /\
    fltb f_71_5 f_71_5 = false /\
    in_half_open_box (x, f_71_5) = false.
Proof.
  eexists. eexists. eexists.
  split; [vm_compute; reflexivity |].
  split; [vm_compute; reflexivity |].
  split; vm_compute; reflexivity.
Qed.

(** The same computation on the machine's own doubles: the literals of the
    script, the sample [1 - 2^-53], and the expression of [random_uniform]. *)
Example top_latitude_on_primitive_floats :
  Prim2SF (57.5 + (71.5 - 57.5) * 0x1.fffffffffffffp-1)%float = f_71_5 /\
  (57.5 + (71.5 - 57.5) * 0x1.fffffffffffffp-1 <? 71.5)%float = false /\
  (4.0 + (31.5 - 4.0) * 0x1.fffffffffffffp-1 <? 31.5)%float = true.
Proof. repeat split; vm_compute; reflexivity. Qed.

(** C9, amended. Every coordinate pair of every table that
    [generate_data(N)] returns has its longitude in the half-open interval
    [4.0, 31.5), strictly below the upper bound, and its latitude in the
    closed interval [57.5, 71.5]. *)
Theorem generated_points_in_reached_box
  (g : bitgen) (spare : nat) (uis : list Widgets) (N : Z)
  (df : DataFrame) (w' : World) :
  call_generate_data N (session uis (fresh g spare)) = (Ok df, w') ->
  Forall (fun p => in_reached_box p = true) (positions df).
Proof.
  intros Hcall.
  pose proof (call_generate_data_table N _ df w'
                (session_cache_ok uis _ (cache_ok_fresh g spare)) Hcall)
    as (_ & _ & _ & Hbox).
  exact Hbox.
Qed.

Lemma generated_points_in_reached_box_witness :
  Forall (fun p => in_reached_box p = true)
    (positions (table_of (call_generate_data 100 (session [] (fresh top_gen 0))))).
Proof.
  apply (generated_points_in_reached_box top_gen 0 [] 100 _
           (snd (call_generate_data 100 (session [] (fresh top_gen 0))))).
  vm_compute. reflexivity.
Defined.

(** C3. Calling [generate_data] twice with the same count N, with no
    invalidation in between, returns identical results: the second call
    returns what the first returned and leaves the world (memo and random
    state) exactly as the first call left it, and a returned table is the one
    the memo holds for N. For every count the script can ask for, and down
    to 0, the first call does return a table, and the second call returns
    that table from the memo without drawing. The same holds for two
    consecutive runs of the script with unchanged widgets and no click. *)
Theorem generate_data_memoized (N : Z) (w : World) :
  call_generate_data N (snd (call_generate_data N w)) = call_generate_data N w /\
  match fst (call_generate_data N w) with
  | Ok df => cache (snd (call_generate_data N w)) !! N = Some df
  | Raise _ => True
  end /\
  (0 <= N <= 10000 ->
   exists df w1,
     call_generate_data N w = (Ok df, w1) /\
     cache w1 !! N = Some df /\
     call_generate_data N w1 = (Ok df, w1)) /\
  forall ui,
    run (release_button ui) (snd (run (release_button ui) w))
    = run (release_button ui) w.
Proof.
  split; [apply call_generate_data_twice |]. split.
  { destruct (fst (call_generate_data N w)) as [df | e] eqn:H; [| exact I].
    apply call_ok_memoized, H. }
  split.
  - intros HN.
    destruct (call_generate_data_ok N w HN) as (df & w1 & Hcall & _ & Hc & _).
    exists df, w1. split; [exact Hcall |]. split; [exact Hc |].
    pose proof (call_generate_data_twice N w) as H2.
    rewrite Hcall in H2. exact H2.
  - intros ui. rewrite !run_released, !script_eq.
    pose proof (call_generate_data_twice
                  (slider num_points_cfg (num_points_handle (release_button ui))) w) as H2.
    destruct (call_generate_data _ w) as [[df | e] w2]; simpl in *; rewrite H2; reflexivity.
Qed.

Lemma generate_data_memoized_witness :
  0 <= 100 <= 10000 /\
  exists df w1,
    call_generate_data 100 (fresh sample_gen 0) = (Ok df, w1) /\
    cache w1 !! 100 = Some df /\
    call_generate_data 100 w1 = (Ok df, w1).
Proof.
  split; [lia |].
  pose proof (generate_data_memoized 100 (fresh sample_gen 0)) as (_ & _ & H & _).
  apply H. lia.
Defined.

(** C4. A click on "Regenerate Data" clears the memo and asks for a rerun,
    which runs the script again with the button released and the checkbox
    back at its default. In the world the click leaves behind, the next call
    of [generate_data], with any count, is a miss that runs the body again;
    for every count the slider can select, and down to 0, the body draws 2N
    new samples from the random state and returns the table made of them. *)
Theorem regenerate_forces_recomputation (ui : Widgets) (w : World) :
  regenerate_clicked ui = true ->
  exists w1,
    script ui w = (Rerun, w1) /\
    cache w1 = ∅ /\
    run ui w = script (rerun_widgets ui) w1 /\
    forall N,
      call_generate_data N w1
      = match generate_data_body N w1 with
        | (Ok df, w2) => (Ok df, memoize N df w2)
        | (Raise e, w2) => (Raise e, w2)
        end /\
      (0 <= N <= 10000 ->
       generate_data_body N w1
       = (Ok (drawn_table (rng w1) (Z.to_nat N)), advance (2 * Z.to_nat N) w1)).
Proof.
  intros Hclick.
  destruct (clicked_pass ui w Hclick) as (w1 & Hs & Hc & Hb & Hrun).
  exists w1.
  split; [exact Hs |]. split; [exact Hc |]. split; [exact Hrun |].
  intros N. split.
  - rewrite call_generate_data_eq, (assign_idempotent _ Hb).
    apply generate_data_miss. rewrite Hc. apply lookup_empty.
  - intros HN. apply body_small; [exact Hb | exact HN].
Qed.

Lemma regenerate_forces_recomputation_witness :
  regenerate_clicked click_ui = true /\
  exists w1,
    script click_ui (session [low_ui] (fresh sample_gen 0)) = (Rerun, w1) /\
    cache w1 = ∅ /\
    run click_ui (session [low_ui] (fresh sample_gen 0))
    = script (rerun_widgets click_ui) w1 /\
    forall N,
      call_generate_data N w1
      = match generate_data_body N w1 with
        | (Ok df, w2) => (Ok df, memoize N df w2)
        | (Raise e, w2) => (Raise e, w2)
        end /\
      (0 <= N <= 10000 ->
       generate_data_body N w1
       = (Ok (drawn_table (rng w1) (Z.to_nat N)), advance (2 * Z.to_nat N) w1)).
Proof.
  split; [reflexivity |].
  apply (regenerate_forces_recomputation click_ui (session [low_ui] (fresh sample_gen 0))).
  reflexivity.
Defined.

(** C10. The regenerate action empties the whole memo, not only the entry of
    the selected count: after [st.cache_data.clear()], and in the world the
    clicked pass leaves behind, no count has an entry; and when the run it
    triggered is over, the only entry is the new one of the selected count. *)
Theorem regenerate_clears_every_key (ui : Widgets) (w : World) (N : Z) :
  regenerate_clicked ui = true ->
  cache (snd (cache_data_clear w)) !! N = None /\
  cache (snd (script ui w)) !! N = None /\
  (N <> slider num_points_cfg (num_points_handle ui) ->
   cache (snd (run ui w)) !! N = None).
Proof.
  intros Hclick. split; [apply lookup_empty |].
  destruct (clicked_pass ui w Hclick) as (w1 & Hs & Hc & Hb & Hrun).
  rewrite Hs. simpl snd. rewrite Hc. split; [apply lookup_empty |].
  intros HN. rewrite Hrun.
  destruct (script_outcome (rerun_widgets ui) w1) as (df & w2 & Hcall & Hs2).
  rewrite Hs2. simpl.
  change (num_points_handle (rerun_widgets ui)) with (num_points_handle ui) in Hcall.
  pose proof (call_memo_rule (slider num_points_cfg (num_points_handle ui)) w1) as Hm.
  rewrite Hcall in Hm. simpl in Hm. rewrite Hm, Hc.
  rewrite lookup_insert_ne by congruence. apply lookup_empty.
Qed.

Lemma regenerate_clears_every_key_witness :
  cache (session [low_ui] (fresh sample_gen 0)) !! 100 <> None /\
  cache (snd (cache_data_clear (session [low_ui] (fresh sample_gen 0)))) !! 100 = None /\
  cache (snd (script click_ui (session [low_ui] (fresh sample_gen 0)))) !! 100 = None /\
  (100 <> slider num_points_cfg (num_points_handle click_ui) ->
   cache (snd (run click_ui (session [low_ui] (fresh sample_gen 0)))) !! 100 = None).
Proof.
  split; [vm_compute; discriminate |].
  apply (regenerate_clears_every_key click_ui (session [low_ui] (fresh sample_gen 0)) 100).
  reflexivity.
Defined.

(** C5, as stated, fails: no stop of the colour ramp is normalized; already
    the red channel of the first stop is 255. *)
Lemma color_ramp_not_normalized :
  color_range (layer {| lat := []; lon := [] |} 10000 20) = color_ramp /\
  Forall (fun c => ~ normalized_rgba c) color_ramp.
Proof.
  split; [reflexivity |].
  unfold color_ramp.
  repeat constructor; intros [_ H];
    repeat match goal with
           | H : Forall _ (_ :: _) |- _ => apply Forall_cons_1 in H; destruct H
           end; lia.
Qed.

(** C5, amended. Whatever the data and the sliders, the layer carries the
    same colour ramp of exactly five stops, each a list of four 8-bit
    channels (red, green, blue, alpha in 0..255), running from light yellow
    (255, 255, 178) to dark red (189, 0, 38) with strictly decreasing
    brightness. *)
Theorem color_ramp_five_byte_stops (data : DataFrame) (radius elevation : Z) :
  let ramp := color_range (layer data radius elevation) in
  length ramp = 5%nat /\
  Forall byte_rgba ramp /\
  List.hd_error ramp = Some [255; 255; 178; 100] /\
  List.last ramp [] = [189; 0; 38; 220] /\
  StronglySorted Z.gt (map brightness ramp).
Proof.
  cbn zeta. simpl color_range. unfold color_ramp.
  split; [reflexivity |]. split.
  - repeat constructor; lia.
  - split; [reflexivity |]. split; [reflexivity |].
    simpl. repeat constructor; lia.
Qed.

(** C6. The count that reaches [generate_data] is the slider's: whatever
    the browser reports, the backend of the slider returns a positive integer
    between 100 and 10000 (a reported value outside that range is replaced by
    the initial 5000). With such a count the call raises nothing, in any
    world, and the run ends with a rendered page. *)
Theorem slider_clamps_point_count (ui : Widgets) (w : World) :
  let n := slider num_points_cfg (num_points_handle ui) in
  (100 <= n <= 10000 /\ 0 < n) /\
  (exists df w2,
     call_generate_data n w = (Ok df, w2) /\
     script ui w
     = if regenerate_clicked ui then (Rerun, snd (cache_data_clear w2))
       else
         (Rendered
            {| generated_points := len df;
               chart := deck (layer df
                                (slider hexagon_radius_cfg (hexagon_radius_handle ui))
                                (slider elevation_scale_cfg (elevation_scale_handle ui)))
                          view_state;
               raw_sample := if show_raw_checked ui then Some (head 100 df) else None |},
          w2)) /\
  (exists page w', run ui w = (Rendered page, w')).
Proof.
  cbn zeta.
  pose proof (num_points_range (num_points_handle ui)) as Hn.
  split; [lia |]. split; [apply script_outcome |].
  destruct (run_renders ui w) as (df & w' & Hrun).
  rewrite Hrun. eauto.
Qed.

(** C7. Whatever the sliders, the button and the checkbox, the scene of the
    rendered page has one layer with elevation range [0, 1000], extrusion,
    picking and hover highlight switched on, a tooltip, and the camera at
    longitude 10.0, latitude 64.0, zoom 4, pitch 50, bearing 0. *)
Theorem scene_constants (ui : Widgets) (w : World) :
  exists page w' l,
    run ui w = (Rendered page, w') /\
    layers (chart page) = [l] /\
    elevation_range l = [0; 1000] /\
    extruded l = true /\
    pickable l = true /\
    auto_highlight l = true /\
    tooltip (chart page)
    = Some {| html := "<b>Elevation Value:</b> {elevationValue}<br/><b>Number of Points:</b> {count}";
              style := [("color", "white")] |} /\
    initial_view_state (chart page)
    = {| longitude := Prim2SF 10.0; latitude := Prim2SF 64.0;
         zoom := 4; pitch := 50; bearing := 0 |}.
Proof.
  destruct (run_renders ui w) as (df & w' & Hrun).
  eexists. exists w'. eexists.
  split; [exact Hrun |].
  repeat split.
Qed.

(** C8. The bounding box is the dict of four floats min_lon 4.0, max_lon
    31.5, min_lat 57.5, max_lat 71.5. Data generation and cache
    invalidation leave the global untouched, and every pass and every run of
    the script ends with the global holding exactly that dict. *)
Theorem bounding_box_constant (w : World) :
  (bounds_literal !! "min_lon" = Some (Prim2SF 4.0) /\
   bounds_literal !! "max_lon" = Some (Prim2SF 31.5) /\
   bounds_literal !! "min_lat" = Some (Prim2SF 57.5) /\
   bounds_literal !! "max_lat" = Some (Prim2SF 71.5) /\
   size bounds_literal = 4%nat) /\
  (forall N, NORWAY_BOUNDS (snd (generate_data N w)) = NORWAY_BOUNDS w) /\
  NORWAY_BOUNDS (snd (cache_data_clear w)) = NORWAY_BOUNDS w /\
  (forall ui, NORWAY_BOUNDS (snd (script ui w)) = bounds_literal) /\
  (forall ui, NORWAY_BOUNDS (snd (run ui w)) = bounds_literal) /\
  (forall ui uis, NORWAY_BOUNDS (session (uis ++ [ui]) w) = bounds_literal).
Proof.
  split; [repeat split; vm_compute; reflexivity |].
  split; [intros N; apply keeps_bounds_generate_data |].
  split; [reflexivity |].
  split; [intros ui; apply script_bounds |].
  split; [intros ui; apply run_bounds |].
  intros ui uis. unfold session. rewrite fold_left_app. simpl. apply run_bounds.
Qed.

(** ** Further properties *)



(** X2. When the bounding box has its latitude keys but no [min_lon], the
    failure comes late: for a count the slider can select (or less), the
    call has already drawn its N latitudes, so N samples of the random state
    are consumed and lost when [KeyError] is raised, and nothing is
    memoized. *)
Theorem missing_longitude_key_loses_draws (n : Z) (w : World) (lo hi : float) :
  NORWAY_BOUNDS w !! "min_lat" = Some lo ->
  NORWAY_BOUNDS w !! "max_lat" = Some hi ->
  is_finite (fsub hi lo) = true ->
  NORWAY_BOUNDS w !! "min_lon" = None ->
  cache w !! n = None ->
  0 <= n <= 10000 ->
  generate_data n w = (Raise (KeyError "min_lon"), advance (Z.to_nat n) w).
Proof.
  intros H1 H2 F H3 Hc Hn.
  rewrite (generate_data_miss n w Hc), body_outcome, H1, H2, F, H3.
  destruct (small_count_fits n w Hn) as (E1 & E2 & E3).
  rewrite E1, E2, E3. reflexivity.
Qed.

Lemma missing_longitude_key_loses_draws_witness :
  generate_data 100 lat_only_world
  = (Raise (KeyError "min_lon"), advance (Z.to_nat 100) lat_only_world).
Proof.
  apply (missing_longitude_key_loses_draws 100 lat_only_world f_57_5 f_71_5);
    solve [vm_compute; reflexivity | lia].
Defined.

(** X3. What a call of [generate_data(N)] can change, in any world and
    whether it hits, misses or raises: in the memo, at most the key N (after
    a returned table the memo is the old one with N bound to that table,
    after an exception it is unchanged); in the random state, only the
    cursor, which never moves back. The bounding box and the tape are never
    written. *)
Theorem generate_data_effects (N : Z) (w : World) :
  cache (snd (generate_data N w))
  = match fst (generate_data N w) with
    | Ok df => <[N := df]> (cache w)
    | Raise _ => cache w
    end /\
  NORWAY_BOUNDS (snd (generate_data N w)) = NORWAY_BOUNDS w /\
  tape (rng (snd (generate_data N w))) = tape (rng w) /\
  (cursor (rng w) <= cursor (rng (snd (generate_data N w))))%nat.
Proof.
  split; [apply memo_rule |].
  split; [apply keeps_bounds_generate_data |].
  unfold generate_data, cache_data.
  destruct (cache w !! N) as [df |]; [simpl; split; [reflexivity | lia] |].
  pose proof (body_only_draws N w) as H.
  destruct (generate_data_body N w) as [[df | e] w1]; exact H.
Qed.

(** X4. A negative count is refused at any moment of any session:
    [generate_data(N)] raises [ValueError], draws nothing and memoizes
    nothing. *)
Theorem negative_count_rejected
  (g : bitgen) (spare : nat) (uis : list Widgets) (N : Z) :
  N < 0 ->
  call_generate_data N (session uis (fresh g spare))
  = (Raise ValueError,
     snd (assign_NORWAY_BOUNDS bounds_literal (session uis (fresh g spare)))) /\
  cache (snd (call_generate_data N (session uis (fresh g spare))))
  = cache (session uis (fresh g spare)) /\
  rng (snd (call_generate_data N (session uis (fresh g spare))))
  = rng (session uis (fresh g spare)).
Proof.
  intros HN.
  rewrite (call_generate_data_negative N _
             (session_cache_ok uis _ (cache_ok_fresh g spare)) HN).
  repeat split.
Qed.

Lemma negative_count_rejected_witness :
  call_generate_data (-1) (session [low_ui] (fresh sample_gen 0))
  = (Raise ValueError,
     snd (assign_NORWAY_BOUNDS bounds_literal (session [low_ui] (fresh sample_gen 0)))) /\
  cache (snd (call_generate_data (-1) (session [low_ui] (fresh sample_gen 0))))
  = cache (session [low_ui] (fresh sample_gen 0)) /\
  rng (snd (call_generate_data (-1) (session [low_ui] (fresh sample_gen 0))))
  = rng (session [low_ui] (fresh sample_gen 0)).
Proof. apply (negative_count_rejected sample_gen 0 [low_ui] (-1)). lia. Defined.

(** X5. A count of zero is accepted at any moment of any session: the call
    returns the empty table, draws nothing, and memoizes the empty table
    under the key 0 (no run of the script ever uses that key). *)
Theorem zero_count_empty_table (g : bitgen) (spare : nat) (uis : list Widgets) :
  let w := session uis (fresh g spare) in
  call_generate_data 0 w
  = (Ok {| lat := []; lon := [] |},
     memoize 0 {| lat := []; lon := [] |}
       (advance 0 (snd (assign_NORWAY_BOUNDS bounds_literal w)))).
Proof.
  cbn zeta.
  assert (H0 : 0 <= 0 <= max_points) by (unfold max_points; lia).
  rewrite (call_small 0 _ H0). cbn zeta.
  destruct (cache (session uis (fresh g spare)) !! 0) as [df |] eqn:Hc; [| reflexivity].
  pose proof (session_keys uis _ (keys_on_track_fresh g spare) 0 df Hc). lia.
Qed.

(** X6. On a miss, the table is a function of the tape: for a count the
    slider can select (or less), with the cursor at c, latitude i is the
    sample of tape cell c + i and longitude i is the sample of tape cell
    c + N + i; the call leaves the cursor at c + 2 N and the table in the
    memo. All latitudes are drawn before any longitude. *)
Theorem columns_follow_the_tape (n : Z) (w : World) :
  0 <= n <= 10000 -> cache w !! n = None ->
  let df :=
    {| lat := List.map (fun i => sample_of f_57_5 (fsub f_71_5 f_57_5)
                                    (tape (rng w) (cursor (rng w) + i)%nat))
                (List.seq 0 (Z.to_nat n));
       lon := List.map (fun i => sample_of f_4_0 (fsub f_31_5 f_4_0)
                                    (tape (rng w) (cursor (rng w) + Z.to_nat n + i)%nat))
                (List.seq 0 (Z.to_nat n)) |} in
  call_generate_data n w
  = (Ok df, memoize n df (advance (2 * Z.to_nat n)
                            (snd (assign_NORWAY_BOUNDS bounds_literal w)))).
Proof.
  intros Hn Hc. cbn zeta. rewrite (call_small n w Hn). cbn zeta.
  rewrite Hc. reflexivity.
Qed.

Lemma columns_follow_the_tape_witness :
  let df :=
    {| lat := List.map (fun i => sample_of f_57_5 (fsub f_71_5 f_57_5)
                                    (tape (rng (fresh sample_gen 0))
                                       (cursor (rng (fresh sample_gen 0)) + i)%nat))
                (List.seq 0 (Z.to_nat 100));
       lon := List.map (fun i => sample_of f_4_0 (fsub f_31_5 f_4_0)
                                    (tape (rng (fresh sample_gen 0))
                                       (cursor (rng (fresh sample_gen 0)) + Z.to_nat 100 + i)%nat))
                (List.seq 0 (Z.to_nat 100)) |} in
  call_generate_data 100 (fresh sample_gen 0)
  = (Ok df, memoize 100 df (advance (2 * Z.to_nat 100)
                              (snd (assign_NORWAY_BOUNDS bounds_literal (fresh sample_gen 0))))).
Proof.
  apply (columns_follow_the_tape 100 (fresh sample_gen 0)); [lia | reflexivity].
Defined.

(** X7. Sampling keeps the order of the draws, roundings included: of two
    53-bit draws the larger never yields the smaller latitude nor the
    smaller longitude, and the draw 0 yields the lower bound itself. *)
Theorem samples_are_monotone (k1 k2 : Z) :
  0 <= k1 <= k2 -> k2 < 2 ^ 53 ->
  fleb (sample_of f_57_5 (fsub f_71_5 f_57_5) k1)
       (sample_of f_57_5 (fsub f_71_5 f_57_5) k2) = true /\
  fleb (sample_of f_4_0 (fsub f_31_5 f_4_0) k1)
       (sample_of f_4_0 (fsub f_31_5 f_4_0) k2) = true /\
  sample_of f_57_5 (fsub f_71_5 f_57_5) 0 = f_57_5 /\
  sample_of f_4_0 (fsub f_31_5 f_4_0) 0 = f_4_0.
Proof.
  intros H1 H2.
  assert (Hk : k1 mod 2 ^ 53 <= k2 mod 2 ^ 53) by (rewrite !Z.mod_small by lia; lia).
  split; [apply lat_sample_mono, Hk |].
  split; [apply lon_sample_mono, Hk |].
  split; vm_compute; reflexivity.
Qed.

Lemma samples_are_monotone_witness :
  fleb (sample_of f_57_5 (fsub f_71_5 f_57_5) 1)
       (sample_of f_57_5 (fsub f_71_5 f_57_5) (2 ^ 53 - 1)) = true /\
  fleb (sample_of f_4_0 (fsub f_31_5 f_4_0) 1)
       (sample_of f_4_0 (fsub f_31_5 f_4_0) (2 ^ 53 - 1)) = true /\
  sample_of f_57_5 (fsub f_71_5 f_57_5) 0 = f_57_5 /\
  sample_of f_4_0 (fsub f_31_5 f_4_0) 0 = f_4_0.
Proof. apply (samples_are_monotone 1 (2 ^ 53 - 1)); lia. Defined.

(** X8. What the other two sliders send to the layer. A radius the browser
    reports between 1000 and 50000 and an elevation scale it reports between
    1 and 100 reach the layer of the rendered page as they are, also after a
    click and its rerun; whatever the browser reports, the radius on the
    layer lies between 1000 and 50000 and the elevation scale between 1 and
    100, and neither slider has any effect on the table the layer shows. *)
Theorem sliders_reach_the_layer (ui : Widgets) (w : World) :
  exists page w' l,
    run ui w = (Rendered page, w') /\
    layers (chart page) = [l] /\
    (forall r, hexagon_radius_handle ui = Some r -> 1000 <= r <= 50000 -> radius l = r) /\
    (forall s, elevation_scale_handle ui = Some s -> 1 <= s <= 100 ->
               elevation_scale l = s) /\
    1000 <= radius l <= 50000 /\
    1 <= elevation_scale l <= 100 /\
    forall r s,
      shown_table
        (fst (run {| num_points_handle := num_points_handle ui;
                     hexagon_radius_handle := r;
                     elevation_scale_handle := s;
                     regenerate_clicked := regenerate_clicked ui;
                     show_raw_checked := show_raw_checked ui |} w))
      = Some (data l).
Proof.
  destruct (run_renders ui w) as (df & w' & Hrun).
  eexists. exists w'. eexists.
  split; [exact Hrun |]. split; [reflexivity |].
  cbn [chart deck layers layer radius elevation_scale data].
  split.
  { intros r Hr Hin. rewrite Hr. unfold slider. cbn [hexagon_radius_cfg min_value max_value].
    rewrite (proj2 (Z.leb_le 1000 r)), (proj2 (Z.leb_le r 50000)) by lia. reflexivity. }
  split.
  { intros s Hs Hin. rewrite Hs. unfold slider. cbn [elevation_scale_cfg min_value max_value].
    rewrite (proj2 (Z.leb_le 1 s)), (proj2 (Z.leb_le s 100)) by lia. reflexivity. }
  split; [apply hexagon_radius_range |].
  split; [apply elevation_scale_range |].
  intros r s.
  assert (Htable : shown_table (fst (run ui w)) = Some df)
    by (rewrite Hrun; reflexivity).
  rewrite <- Htable. unfold run. rewrite !script_eq.
  cbn [num_points_handle regenerate_clicked].
  destruct (call_generate_data _ w) as [[d | e] w2]; [| reflexivity].
  destruct (regenerate_clicked ui); [| reflexivity].
  rewrite !script_eq. cbn [num_points_handle rerun_widgets regenerate_clicked].
  destruct (call_generate_data _ _) as [[d' | e'] w3]; reflexivity.
Qed.

(** X9. In a session, the page of every run shows the table the memo holds
    for the selected count N when the run is over; the sidebar reports N
    points, the table has N coordinate pairs, and all of them lie in the
    bounding box. *)
Theorem page_shows_the_memoized_table
  (g : bitgen) (spare : nat) (uis : list Widgets) (ui : Widgets) :
  let n := slider num_points_cfg (num_points_handle ui) in
  exists page w' df,
    run ui (session uis (fresh g spare)) = (Rendered page, w') /\
    shown_table (Rendered page) = Some df /\
    cache w' !! n = Some df /\
    generated_points page = Z.to_nat n /\
    length (positions df) = Z.to_nat n /\
    Forall (fun p => in_box p = true) (positions df).
Proof.
  cbn zeta.
  destruct (run_shows_memo ui _ (session_cache_ok uis _ (cache_ok_fresh g spare)))
    as (df & w' & Hrun & Hc & (_ & Hlat & Hlon & Hbox)).
  eexists. exists w', df.
  split; [exact Hrun |]. split; [reflexivity |]. split; [exact Hc |].
  split; [unfold len; simpl; lia |].
  split; [unfold positions; rewrite length_zip; lia |].
  eapply Forall_impl; [exact Hbox |].
  intros p Hp. apply in_reached_box_in_box, Hp.
Qed.

(** X10. The raw data sample is the first hundred rows. In a session, a run
    without click whose checkbox is ticked puts [data.head(100)] on the
    page; a run that was clicked ends in a rerun in which the checkbox reads
    its default, so its page carries no sample, ticked or not. Whenever
    there is a sample it has exactly 100 rows (the slider never selects
    fewer), and its coordinate pairs are the first 100 pairs of the table
    the layer displays. *)
Theorem raw_sample_is_first_hundred
  (g : bitgen) (spare : nat) (uis : list Widgets) (ui : Widgets) :
  exists page w' df,
    run ui (session uis (fresh g spare)) = (Rendered page, w') /\
    shown_table (Rendered page) = Some df /\
    raw_sample page
    = (if regenerate_clicked ui then None
       else if show_raw_checked ui then Some (head 100 df) else None) /\
    (forall sample,
       raw_sample page = Some sample ->
       regenerate_clicked ui = false /\ show_raw_checked ui = true /\
       len sample = 100%nat /\
       positions sample = take 100 (positions df)).
Proof.
  destruct (run_shows_memo ui _ (session_cache_ok uis _ (cache_ok_fresh g spare)))
    as (df & w' & Hrun & _ & (_ & Hlat & Hlon & _)).
  pose proof (num_points_range (num_points_handle ui)) as Hn.
  eexists. exists w', df.
  split; [exact Hrun |]. split; [reflexivity |]. split; [reflexivity |].
  cbn [raw_sample]. intros sample Hs.
  destruct (regenerate_clicked ui); [discriminate |].
  destruct (show_raw_checked ui); [| discriminate].
  injection Hs as <-.
  split; [reflexivity |]. split; [reflexivity |]. split.
  - unfold len, head. cbn [lat]. rewrite length_take. lia.
  - unfold positions, head. cbn [lat lon]. symmetry. apply zip_with_take.
Qed.





(** X13. In a session the memo only ever holds tables for counts the
    point-count slider returned: every key lies between 100 and 10000, and
    the table under a key N has N rows, all inside the bounding box. So no
    memoized table has more than 10000 rows. *)
Theorem memo_keys_are_slider_counts
  (g : bitgen) (spare : nat) (uis : list Widgets) (N : Z) (df : DataFrame) :
  cache (session uis (fresh g spare)) !! N = Some df ->
  100 <= N <= 10000 /\
  Z.of_nat (len df) = N /\
  length (positions df) = Z.to_nat N /\
  Forall (fun p => in_box p = true) (positions df).
Proof.
  intros Hc.
  split; [apply (session_keys uis _ (keys_on_track_fresh g spare) N df Hc) |].
  destruct (session_cache_ok uis _ (cache_ok_fresh g spare) N df Hc)
    as (_ & Hlat & Hlon & Hbox).
  split; [exact Hlat |].
  split; [unfold positions; rewrite length_zip; lia |].
  eapply Forall_impl; [exact Hbox |].
  intros p Hp. apply in_reached_box_in_box, Hp.
Qed.

Lemma memo_keys_are_slider_counts_witness :
  100 <= 100 <= 10000 /\
  Z.of_nat (len first_table) = 100 /\
  length (positions first_table) = Z.to_nat 100 /\
  Forall (fun p => in_box p = true) (positions first_table).
Proof.
  apply (memo_keys_are_slider_counts sample_gen 0 [low_ui] 100 first_table).
  vm_compute. reflexivity.
Defined.

(** X14. What a run costs the random state: the tape is never altered, and
    the cursor moves forward by 2 N for a memo miss plus 2 N more when the
    button was clicked (N the selected count); a run that hits the memo
    without a click draws nothing. *)
Theorem draws_of_a_run (ui : Widgets) (w : World) :
  let n := slider num_points_cfg (num_points_handle ui) in
  tape (rng (snd (run ui w))) = tape (rng w) /\
  cursor (rng (snd (run ui w)))
  = (cursor (rng w)
     + match cache w !! n with Some _ => 0 | None => 2 * Z.to_nat n end
     + (if regenerate_clicked ui then 2 * Z.to_nat n else 0))%nat.
Proof.
  cbn zeta.
  pose proof (num_points_small (num_points_handle ui)) as Hn.
  set (n := slider num_points_cfg (num_points_handle ui)) in *.
  unfold run. rewrite script_eq. fold n. rewrite (call_small n w Hn). cbn zeta.
  destruct (regenerate_clicked ui) eqn:Hclick.
  - destruct (cache w !! n) as [df |]; cbv iota beta;
      rewrite script_eq;
      change (num_points_handle (rerun_widgets ui)) with (num_points_handle ui);
      fold n; rewrite (call_small n _ Hn); cbn zeta;
      change (cache (snd (cache_data_clear ?x))) with (∅ : gmap Z DataFrame);
      rewrite lookup_empty;
      cbn [regenerate_clicked rerun_widgets fst snd rng tape cursor
           assign_NORWAY_BOUNDS cache_data_clear advance memoize];
      split; try reflexivity; lia.
  - destruct (cache w !! n) as [df |];
      cbn [fst snd rng tape cursor assign_NORWAY_BOUNDS advance memoize];
      split; try reflexivity; lia.
Qed.

(** X15. A click shows a table made of draws that no earlier table used:
    with the cursor at c before the run, the table shown after the rerun is
    the image of the tape cells from c' on, where c' = c when the first pass
    hit the memo and c' = c + 2 N when it missed; latitudes come from cells
    c' .. c' + N - 1 and longitudes from cells c' + N .. c' + 2 N - 1. *)
Theorem regenerated_table_uses_new_draws (ui : Widgets) (w : World) :
  regenerate_clicked ui = true ->
  let n := slider num_points_cfg (num_points_handle ui) in
  let c' := (cursor (rng w)
             + match cache w !! n with Some _ => 0 | None => 2 * Z.to_nat n end)%nat in
  shown_table (fst (run ui w))
  = Some {| lat := List.map (fun i => sample_of f_57_5 (fsub f_71_5 f_57_5)
                                        (tape (rng w) (c' + i)%nat))
                     (List.seq 0 (Z.to_nat n));
            lon := List.map (fun i => sample_of f_4_0 (fsub f_31_5 f_4_0)
                                        (tape (rng w) (c' + Z.to_nat n + i)%nat))
                     (List.seq 0 (Z.to_nat n)) |}.
Proof.
  intros Hclick. cbn zeta.
  pose proof (num_points_small (num_points_handle ui)) as Hn.
  set (n := slider num_points_cfg (num_points_handle ui)) in *.
  unfold run. rewrite script_eq. fold n. rewrite (call_small n w Hn), Hclick. cbn zeta.
  destruct (cache w !! n) as [df |]; cbv iota beta;
    rewrite script_eq;
    change (num_points_handle (rerun_widgets ui)) with (num_points_handle ui);
    fold n; rewrite (call_small n _ Hn); cbn zeta;
    change (cache (snd (cache_data_clear ?x))) with (∅ : gmap Z DataFrame);
    rewrite lookup_empty;
    cbn [regenerate_clicked rerun_widgets fst shown_table chart deck layers layer data
         rng tape cursor snd assign_NORWAY_BOUNDS cache_data_clear advance memoize
         drawn_table];
    rewrite ?Nat.add_0_r; reflexivity.
Qed.

Lemma regenerated_table_uses_new_draws_witness :
  let n := slider num_points_cfg (num_points_handle click_ui) in
  let c' := (cursor (rng (fresh sample_gen 0))
             + match cache (fresh sample_gen 0) !! n with
               | Some _ => 0
               | None => 2 * Z.to_nat n
               end)%nat in
  shown_table (fst (run click_ui (fresh sample_gen 0)))
  = Some {| lat := List.map (fun i => sample_of f_57_5 (fsub f_71_5 f_57_5)
                                        (tape (rng (fresh sample_gen 0)) (c' + i)%nat))
                     (List.seq 0 (Z.to_nat n));
            lon := List.map (fun i => sample_of f_4_0 (fsub f_31_5 f_4_0)
                                        (tape (rng (fresh sample_gen 0))
                                           (c' + Z.to_nat n + i)%nat))
                     (List.seq 0 (Z.to_nat n)) |}.
Proof.
  apply (regenerated_table_uses_new_draws click_ui (fresh sample_gen 0)). reflexivity.
Defined.
